(** * mcp-jira: the [JiraFetcher] facade of [jira.py]

    A shallow embedding of [src/mcp-jira/jira.py].  The module is a thin
    facade over an API client: it cleans Jira wiki markup out of text with a
    few regular-expression substitutions, reshapes the client's JSON
    documents into flat dictionaries, and turns every exception into an
    error value.

    - Python strings are lists of Unicode code points.
    - The fragment of [re] the module uses is embedded as a small
      backtracking matcher; each pattern of the source is written as a term
      of that fragment.
    - JSON documents are an inductive type; dictionaries are association
      lists in insertion order.
    - The API client, [datetime] and [str()] of an exception are parameters
      of a section; calls to the client are recorded in a trace. *)

From Stdlib Require Import List NArith ZArith Arith Bool String Ascii Lia.
Import ListNotations.
Local Open Scope list_scope.
Set Warnings "-register-all".

(** ** Python strings *)

(** A character is a code point, a string a list of them. *)
Abbreviation char := N (only parsing).
Abbreviation pystr := (list N) (only parsing).

(** An ASCII literal of the source as a Python string. *)
Definition py (s : string) : pystr := map N_of_ascii (list_ascii_of_string s).

Definition ch (a : ascii) : char := N_of_ascii a.

Definition NL : char := 10%N.

Fixpoint str_eqb (a b : pystr) : bool :=
  match a, b with
  | [], [] => true
  | x :: a', y :: b' => N.eqb x y && str_eqb a' b'
  | _, _ => false
  end.

(** [strip_prefix p s] is [Some rest] when [s = p ++ rest]. *)
Fixpoint strip_prefix (p s : pystr) : option pystr :=
  match p with
  | [] => Some s
  | x :: p' =>
      match s with
      | c :: s' => if N.eqb c x then strip_prefix p' s' else None
      | [] => None
      end
  end.

Fixpoint drop_while (f : char -> bool) (s : pystr) : pystr :=
  match s with
  | c :: s' => if f c then drop_while f s' else s
  | [] => []
  end.

Fixpoint take_while (f : char -> bool) (s : pystr) : pystr :=
  match s with
  | c :: s' => if f c then c :: take_while f s' else []
  | [] => []
  end.

(** [str.isspace] on one code point: the whitespace table of CPython's
    Unicode database. *)
Definition isspace (c : char) : bool :=
  ((9 <=? c) && (c <=? 13) || (28 <=? c) && (c <=? 32)
   || (c =? 133) || (c =? 160) || (c =? 5760)
   || (8192 <=? c) && (c <=? 8202)
   || (c =? 8232) || (c =? 8233) || (c =? 8239) || (c =? 8287)
   || (c =? 12288))%N.

Definition lstrip (f : char -> bool) (s : pystr) : pystr := drop_while f s.
Definition rstrip (f : char -> bool) (s : pystr) : pystr :=
  rev (drop_while f (rev s)).

(** [s.strip()] *)
Definition strip (s : pystr) : pystr := rstrip isspace (lstrip isspace s).

(** Leftmost, non-overlapping replacement, the scheme shared by
    [str.replace] and [re.sub]: [m s] is [Some (out, rest)] when an
    occurrence starts at the head of [s], [out] is what replaces it and
    [rest] is the text after it.  [skip] counts the characters of the
    current occurrence still to be passed over.  An occurrence is never
    empty for the matchers used below. *)
Fixpoint scan (m : pystr -> option (pystr * pystr)) (skip : nat) (s : pystr)
  : pystr :=
  match s with
  | [] => []
  | c :: s' =>
      match skip with
      | S n => scan m n s'
      | O =>
          match m s with
          | Some (out, rest) =>
              out ++ scan m (List.length s' - List.length rest) s'
          | None => c :: scan m 0 s'
          end
      end
  end.

(** [s.replace(old, new)] for a non-empty [old]. *)
Definition str_replace (old new s : pystr) : pystr :=
  scan (fun t => match strip_prefix old t with
                 | Some rest => Some (new, rest)
                 | None => None
                 end) 0 s.

(** ** The fragment of [re] used by the module *)

Module Re.

(** Character classes: a literal, [[^c]], [.] and [.] under [re.DOTALL]. *)
Inductive cclass :=
| Lit (c : char)
| Not (c : char)
| Dot
| DotAll.

Definition accepts (p : cclass) (c : char) : bool :=
  match p with
  | Lit x => N.eqb c x
  | Not x => negb (N.eqb c x)
  | Dot => negb (N.eqb c NL)
  | DotAll => true
  end.

Inductive greed := Greedy | Lazy.

(** Patterns.  Repetition is over a character class, which is all the
    source's patterns need: [Many Greedy 0 p] is [p*], [Many Greedy 1 p] is
    [p+], [Many Lazy 0 p] is [p*?].  [Group] is capture group 1. *)
Inductive regex :=
| Eps
| Chr (p : cclass)
| Cat (r1 r2 : regex)
| Opt (p : cclass)
| Many (g : greed) (least : nat) (p : cclass)
| Group (r : regex).

(** A literal string as a pattern. *)
Definition lit (s : pystr) : regex :=
  fold_right (fun c r => Cat (Chr (Lit c)) r) Eps s.

Section Matcher.
Context {R : Type}.

(** Greedy repetition: take a character while the class accepts it, and
    give back one at a time until the continuation succeeds. *)
Fixpoint greedy (p : cclass) (least : nat) (k : pystr -> option R)
  (s : pystr) : option R :=
  match s with
  | c :: s' =>
      if accepts p c then
        match greedy p (pred least) k s' with
        | Some r => Some r
        | None => match least with O => k s | S _ => None end
        end
      else match least with O => k s | S _ => None end
  | [] => match least with O => k s | S _ => None end
  end.

(** Lazy repetition: try the continuation first, take one more character
    only when it fails. *)
Fixpoint lazy (p : cclass) (least : nat) (k : pystr -> option R)
  (s : pystr) {struct s} : option R :=
  let more n :=
    match s with
    | c :: s' => if accepts p c then lazy p n k s' else None
    | [] => None
    end in
  match least with
  | S n => more n
  | O => match k s with
         | Some r => Some r
         | None => more O
         end
  end.

(** The backtracking matcher, in continuation-passing style: [run r s g k]
    matches [r] at the head of [s] and hands the remaining text and the
    capture to [k]; the first success in the order of Python's matcher is
    the result. *)
Fixpoint run (r : regex) (s : pystr) (g : option pystr)
  (k : pystr -> option pystr -> option R) : option R :=
  match r with
  | Eps => k s g
  | Chr p =>
      match s with
      | c :: s' => if accepts p c then k s' g else None
      | [] => None
      end
  | Cat r1 r2 => run r1 s g (fun s1 g1 => run r2 s1 g1 k)
  | Opt p =>
      match s with
      | c :: s' =>
          if accepts p c then
            match k s' g with
            | Some x => Some x
            | None => k s g
            end
          else k s g
      | [] => k s g
      end
  | Many Greedy n p => greedy p n (fun s' => k s' g) s
  | Many Lazy n p => lazy p n (fun s' => k s' g) s
  | Group r1 =>
      run r1 s g
        (fun s1 _ => k s1 (Some (firstn (List.length s - List.length s1) s)))
  end.

End Matcher.

(** [match_at r s]: the text after the match of [r] at the head of [s], and
    group 1. *)
Definition match_at (r : regex) (s : pystr) : option (pystr * option pystr) :=
  run r s None (fun rest g => Some (rest, g)).

(** Replacement templates: literal text and [\1]. *)
Inductive piece := Text (s : pystr) | Backref1.

Definition expand (repl : list piece) (g : option pystr) : pystr :=
  flat_map (fun p => match p with
                     | Text s => s
                     | Backref1 => match g with Some x => x | None => [] end
                     end) repl.

(** [re.sub(r, repl, s)] for a pattern that does not match the empty
    string. *)
Definition sub (r : regex) (repl : list piece) (s : pystr) : pystr :=
  scan (fun t => match match_at r t with
                 | Some (rest, g) => Some (expand repl g, rest)
                 | None => None
                 end) 0 s.

End Re.

(** ** [_clean_text] *)

(** [\{color:[^}]+\}] *)
Definition re_color_open : Re.regex :=
  Re.Cat (Re.lit (py "{color:"))
    (Re.Cat (Re.Many Re.Greedy 1 (Re.Not (ch "}"))) (Re.Chr (Re.Lit (ch "}")))).

(** [\{\{.*?\}\}] with [re.DOTALL] *)
Definition re_code_block : Re.regex :=
  Re.Cat (Re.lit (py "{{"))
    (Re.Cat (Re.Many Re.Lazy 0 Re.DotAll) (Re.lit (py "}}"))).

(** [!\[?[^\]]*?!] *)
Definition re_image : Re.regex :=
  Re.Cat (Re.Chr (Re.Lit (ch "!")))
    (Re.Cat (Re.Opt (Re.Lit (ch "[")))
       (Re.Cat (Re.Many Re.Lazy 0 (Re.Not (ch "]")))
          (Re.Chr (Re.Lit (ch "!"))))).

(** [\[(.*?)\|[^\]]+\]] *)
Definition re_link : Re.regex :=
  Re.Cat (Re.Chr (Re.Lit (ch "[")))
    (Re.Cat (Re.Group (Re.Many Re.Lazy 0 Re.Dot))
       (Re.Cat (Re.Chr (Re.Lit (ch "|")))
          (Re.Cat (Re.Many Re.Greedy 1 (Re.Not (ch "]")))
             (Re.Chr (Re.Lit (ch "]")))))).

(** [\n+] *)
Definition re_newlines : Re.regex := Re.Many Re.Greedy 1 (Re.Lit NL).

(** The substitutions of [_clean_text], lines 41 to 48, on a string. *)
Definition clean_body (text : pystr) : pystr :=
  let text := Re.sub re_color_open [] text in
  let text := str_replace (py "{color}") [] text in
  let text := Re.sub re_code_block [] text in
  let text := Re.sub re_image [] text in
  let text := Re.sub re_link [Re.Backref1] text in
  strip (Re.sub re_newlines [Re.Text [NL]] text).


(** ** The cleanup read stage by stage

    Each stage of [_clean_text] written as a direct scanner, without the
    regular-expression matcher: what starts at the head of the text, what
    replaces it, and what text follows it. *)

Definition is_not (x c : char) : bool := negb (N.eqb c x).

(** An opening colour marker: [{color:], a non-empty value free of [}],
    and [}]. *)
Definition color_open_at (s : pystr) : option (pystr * pystr) :=
  match strip_prefix (py "{color:") s with
  | Some t =>
      match take_while (is_not (ch "}")) t, drop_while (is_not (ch "}")) t with
      | _ :: _, _ :: rest => Some ([], rest)
      | _, _ => None
      end
  | None => None
  end.

(** The closing colour marker [{color}]. *)
Definition color_close_at (s : pystr) : option (pystr * pystr) :=
  match strip_prefix (py "{color}") s with
  | Some rest => Some ([], rest)
  | None => None
  end.

(** The text after the first occurrence of [p] in [s]. *)
Fixpoint after_first (p s : pystr) : option pystr :=
  match strip_prefix p s with
  | Some rest => Some rest
  | None =>
      match s with
      | _ :: s' => after_first p s'
      | [] => None
      end
  end.

(** A code block: [{{], any text (newlines too), up to the first [}}]. *)
Definition code_block_at (s : pystr) : option (pystr * pystr) :=
  match strip_prefix (py "{{") s with
  | Some t =>
      match after_first (py "}}") t with
      | Some rest => Some ([], rest)
      | None => None
      end
  | None => None
  end.

(** The text after the next [!], provided no []] stands before it. *)
Fixpoint image_end (s : pystr) : option pystr :=
  match s with
  | [] => None
  | c :: s' =>
      if N.eqb c (ch "!") then Some s'
      else if N.eqb c (ch "]") then None
      else image_end s'
  end.

(** An image reference: [!], text free of []], and the next [!]. *)
Definition image_at (s : pystr) : option (pystr * pystr) :=
  match s with
  | c :: t =>
      if N.eqb c (ch "!") then
        match image_end t with
        | Some rest => Some ([], rest)
        | None => None
        end
      else None
  | [] => None
  end.

(** The target of a link: [|], a non-empty target free of []], and []]. *)
Definition link_target (s : pystr) : option pystr :=
  match s with
  | c :: u =>
      if N.eqb c (ch "|") then
        match take_while (is_not (ch "]")) u, drop_while (is_not (ch "]")) u with
        | _ :: _, _ :: rest => Some rest
        | _, _ => None
        end
      else None
  | [] => None
  end.

(** The display text of a link and the text after the link: the display
    text is the shortest text, free of newlines, that a target follows. *)
Fixpoint link_split (s : pystr) : option (pystr * pystr) :=
  match link_target s with
  | Some rest => Some ([], rest)
  | None =>
      match s with
      | c :: s' =>
          if N.eqb c NL then None
          else
            match link_split s' with
            | Some (display, rest) => Some (c :: display, rest)
            | None => None
            end
      | [] => None
      end
  end.

(** A link [[display|target]], replaced by its display text. *)
Definition link_at (s : pystr) : option (pystr * pystr) :=
  match s with
  | c :: t => if N.eqb c (ch "[") then link_split t else None
  | [] => None
  end.

(** A run of newlines, replaced by one newline. *)
Definition newline_run_at (s : pystr) : option (pystr * pystr) :=
  match s with
  | c :: t =>
      if N.eqb c NL then Some ([NL], drop_while (fun d => N.eqb d NL) t)
      else None
  | [] => None
  end.

Definition remove_color_open (s : pystr) : pystr := scan color_open_at 0 s.
Definition remove_color_close (s : pystr) : pystr := scan color_close_at 0 s.
Definition remove_code_blocks (s : pystr) : pystr := scan code_block_at 0 s.
Definition remove_images (s : pystr) : pystr := scan image_at 0 s.
Definition replace_links (s : pystr) : pystr := scan link_at 0 s.
Definition collapse_newlines (s : pystr) : pystr := scan newline_run_at 0 s.

(** The cleanup as the six stages in their order. *)
Definition clean_stages (s : pystr) : pystr :=
  strip
    (collapse_newlines
       (replace_links
          (remove_images
             (remove_code_blocks
                (remove_color_close
                   (remove_color_open s)))))).

(** The five markup substitutions, without the newline and whitespace
    steps that follow them. *)
Definition markup (s : pystr) : pystr :=
  replace_links
    (remove_images
       (remove_code_blocks
          (remove_color_close
             (remove_color_open s)))).

(** A step that leaves a text as it is or makes it shorter. *)
Definition shrinking (f : pystr -> pystr) : Prop :=
  forall s, f s = s \/ List.length (f s) < List.length s.

(** A matcher whose occurrences are never empty: the text after one is a
    proper suffix of the text it starts in. *)
Definition consumes (m : pystr -> option (pystr * pystr)) : Prop :=
  forall s out rest,
    m s = Some (out, rest) -> exists c pre, s = c :: pre ++ rest.

(** No two newlines side by side. *)
Fixpoint adj_free (s : pystr) : bool :=
  match s with
  | c :: t =>
      match t with
      | d :: _ => negb (N.eqb c NL && N.eqb d NL)
      | [] => true
      end && adj_free t
  | [] => true
  end.

(** No [{], [!] or [[] in the text. *)
Definition plain (s : pystr) : bool :=
  forallb (fun c => negb (N.eqb c (ch "{") || N.eqb c (ch "!")
                          || N.eqb c (ch "["))) s.

(** ** Values *)

(** The documents the API client hands back: parsed JSON.  A dictionary is
    an association list in insertion order with distinct keys; [dict_get]
    reads the first binding. *)
Inductive pyval :=
| PNone
| PBool (b : bool)
| PInt (n : Z)
| PStr (s : pystr)
| PList (l : list pyval)
| PDict (d : list (pystr * pyval)).

Fixpoint dict_get (d : list (pystr * pyval)) (k : pystr) : option pyval :=
  match d with
  | [] => None
  | (k', v) :: d' => if str_eqb k' k then Some v else dict_get d' k
  end.

(** [d.get(k, default)] on a dictionary. *)
Definition field (d : list (pystr * pyval)) (k : pystr) (default : pyval)
  : pyval :=
  match dict_get d k with
  | Some v => v
  | None => default
  end.

(** The entry of a document under [k], if it is a dictionary with one. *)
Definition py_lookup (v : pyval) (k : pystr) : option pyval :=
  match v with
  | PDict d => dict_get d k
  | _ => None
  end.

Definition is_some {A} (o : option A) : bool :=
  match o with
  | Some _ => true
  | None => false
  end.

Definition dict_keys (v : pyval) : list pystr :=
  match v with
  | PDict d => map fst d
  | _ => []
  end.

(** [bool(v)] *)
Definition truthy (v : pyval) : bool :=
  match v with
  | PNone => false
  | PBool b => b
  | PInt n => negb (Z.eqb n 0)
  | PStr s => match s with [] => false | _ => true end
  | PList l => match l with [] => false | _ => true end
  | PDict d => match d with [] => false | _ => true end
  end.

(** [isinstance(v, dict)] *)
Definition isinstance_dict (v : pyval) : bool :=
  match v with
  | PDict _ => true
  | _ => false
  end.

(** The exceptions the module can meet.  [ApiError] stands for any
    [Exception] the API client raises. *)
Inductive exn :=
| AttributeError (obj : pyval) (attr : pystr)
| TypeError (obj : pyval)
| KeyError (key : pystr)
| ValueError (detail : pystr)
| ApiError (what : pystr).

Inductive result (A : Type) :=
| Ok (a : A)
| Raise (e : exn).
Arguments Ok {A} a.
Arguments Raise {A} e.

Definition rbind {A B} (r : result A) (f : A -> result B) : result B :=
  match r with
  | Ok a => f a
  | Raise e => Raise e
  end.

Notation "x <- e ;; k" := (rbind e (fun x => k))
  (at level 61, e at next level, right associativity).

(** A loop body run over a list in order, stopping at the first
    exception. *)
Fixpoint map_result {A B} (f : A -> result B) (l : list A) : result (list B) :=
  match l with
  | [] => Ok []
  | a :: l' => b <- f a ;; bs <- map_result f l' ;; Ok (b :: bs)
  end.

(** [obj.get(k, default)] *)
Definition py_get (obj : pyval) (k : pystr) (default : pyval) : result pyval :=
  match obj with
  | PDict d => Ok (field d k default)
  | _ => Raise (AttributeError obj (py "get"))
  end.

(** [obj[k]] for a string [k] *)
Definition py_getitem (obj : pyval) (k : pystr) : result pyval :=
  match obj with
  | PDict d =>
      match dict_get d k with
      | Some v => Ok v
      | None => Raise (KeyError k)
      end
  | _ => Raise (TypeError obj)
  end.

(** [obj.replace(old, new)] *)
Definition py_replace (obj : pyval) (old new : pystr) : result pystr :=
  match obj with
  | PStr s => Ok (str_replace old new s)
  | _ => Raise (AttributeError obj (py "replace"))
  end.

(** The elements [for x in obj] runs over: a list's items, a dictionary's
    keys, a string's characters. *)
Definition py_iter (obj : pyval) : result (list pyval) :=
  match obj with
  | PList l => Ok l
  | PDict d => Ok (map (fun kv => PStr (fst kv)) d)
  | PStr s => Ok (map (fun c => PStr [c]) s)
  | _ => Raise (TypeError obj)
  end.

Fixpoint is_infix (p s : pystr) : bool :=
  match strip_prefix p s with
  | Some _ => true
  | None =>
      match s with
      | [] => false
      | _ :: s' => is_infix p s'
      end
  end.

(** [k in obj] for a string [k] *)
Definition py_in (k : pystr) (obj : pyval) : result bool :=
  match obj with
  | PDict d => Ok (is_some (dict_get d k))
  | PList l =>
      Ok (existsb (fun v => match v with
                            | PStr s => str_eqb s k
                            | _ => false
                            end) l)
  | PStr s => Ok (is_infix k s)
  | _ => Raise (TypeError obj)
  end.

(** [_clean_text(text)]: a falsy argument gives the empty string; [re.sub]
    raises [TypeError] on any other value that is not a string. *)
Definition _clean_text (text : pyval) : result pystr :=
  if negb (truthy text) then Ok []
  else
    match text with
    | PStr s => Ok (clean_body s)
    | _ => Raise (TypeError text)
    end.

(** ** The fetcher *)

(** The keyword arguments of [Jira(...)]. *)
Record JiraClient := {
  url : pystr;
  username : pystr;
  password : pystr;
  cloud : bool
}.

Record JiraFetcher := {
  server : pystr;
  email : pystr;
  api_token : pystr;
  jira : JiraClient
}.

(** [os.getenv(name, default)] over the process environment. *)
Definition getenv (environ : pystr -> option pystr) (name default : pystr)
  : pystr :=
  match environ name with
  | Some v => v
  | None => default
  end.

Definition nonempty (s : pystr) : bool :=
  match s with
  | [] => false
  | _ => true
  end.

(** [JiraFetcher.__init__] *)
Definition __init__ (environ : pystr -> option pystr) : result JiraFetcher :=
  let server := getenv environ (py "JIRA_SITE") [] in
  let email := getenv environ (py "JIRA_EMAIL") [] in
  let api_token := getenv environ (py "JIRA_API_TOKEN") [] in
  if negb (forallb nonempty [server; email; api_token]) then
    Raise (ValueError (py "Missing required Jira environment variables"))
  else
    Ok {| server := server;
          email := email;
          api_token := api_token;
          jira := {| url := server;
                     username := email;
                     password := api_token;
                     cloud := true |} |}.

(** The variable [name] is unset or empty. *)
Definition missing (environ : pystr -> option pystr) (name : pystr) : Prop :=
  environ name = None \/ environ name = Some [].

(** The requests the fetcher sends to the client. *)
Inductive call :=
| Issue (issue_key expand : pyval)
| Jql (jql : pystr) (fields start limit expand : pyval)
| Projects.

(** Computations that talk to the client: the trace of calls so far is
    threaded through, and a computation ends in a value or an exception. *)
Definition M (A : Type) : Type := list call -> result A * list call.

Definition mret {A} (a : A) : M A := fun t => (Ok a, t).

Definition mbind {A B} (m : M A) (f : A -> M B) : M B :=
  fun t =>
    match m t with
    | (Ok a, t') => f a t'
    | (Raise e, t') => (Raise e, t')
    end.

Definition lift {A} (r : result A) : M A := fun t => (r, t).

(** [try: body except Exception as e: handler(e)] *)
Definition try_except {A} (body : M A) (handler : exn -> M A) : M A :=
  fun t =>
    match body t with
    | (Ok a, t') => (Ok a, t')
    | (Raise e, t') => handler e t'
    end.

Notation "x <<- e ;; k" := (mbind e (fun x => k))
  (at level 61, e at next level, right associativity).

Definition default_created : pystr := py "1970-01-01T00:00:00.000+0000".

Definition error_doc (issue_key : pyval) (message : pystr) : pyval :=
  PDict [(py "key", issue_key); (py "error", PStr message)].

Section Fetcher.

(** The API client: what a request answers, given the requests made
    before it. *)
Variable client : list call -> call -> result pyval.

(** [datetime.fromisoformat(s).strftime('%Y-%m-%d')], [None] when
    [fromisoformat] raises [ValueError]. *)
Variable strftime_ymd : pystr -> option pystr.

(** [str(e)] of an exception. *)
Variable str_exn : exn -> pystr.

(** [str(v)] of a value that is not a string. *)
Variable str_value : pyval -> pystr.

Definition request (c : call) : M pyval :=
  fun t => (client t c, t ++ [c]).

(** A value inside an f-string. *)
Definition format_value (v : pyval) : pystr :=
  match v with
  | PStr s => s
  | _ => str_value v
  end.

Definition fromisoformat_ymd (s : pystr) : result pystr :=
  match strftime_ymd s with
  | Some d => Ok d
  | None => Raise (ValueError s)
  end.

(** The body of the loop over the comments, lines 73 to 77. *)
Definition get_comment (comment : pyval) : result pyval :=
  body <- py_get comment (py "body") (PStr []) ;;
  processed_comment <- _clean_text body ;;
  c <- py_get comment (py "created") (PStr default_created) ;;
  created <- py_replace c (py "Z") (py "+00:00") ;;
  created_date <- fromisoformat_ymd created ;;
  a <- py_get comment (py "author") (PDict []) ;;
  author <- py_get a (py "displayName") (PStr (py "Unknown")) ;;
  Ok (PDict [(py "body", PStr processed_comment);
             (py "created", PStr created_date);
             (py "author", author)]).

(** Lines 60 to 96 of [get_issue]: everything after the first check on the
    client's answer. *)
Definition issue_doc (self : JiraFetcher) (issue_key issue : pyval)
  : result pyval :=
  fields <- py_get issue (py "fields") (PDict []) ;;
  if negb (isinstance_dict fields) then
    Ok (error_doc issue_key (py "Issue missing fields"))
  else
    d <- py_get fields (py "description") (PStr []) ;;
    description <- _clean_text d ;;
    cf <- py_get fields (py "comment") PNone ;;
    comments <-
      (if isinstance_dict cf then
         fc <- py_getitem fields (py "comment") ;;
         cs <- py_get fc (py "comments") (PList []) ;;
         items <- py_iter cs ;;
         map_result get_comment items
       else Ok []) ;;
    c <- py_get fields (py "created") (PStr default_created) ;;
    created_date <- py_replace c (py "Z") (py "+00:00") ;;
    formatted_created <- fromisoformat_ymd created_date ;;
    title <- py_get fields (py "summary") (PStr (py "No Summary")) ;;
    it <- py_get fields (py "issuetype") (PDict []) ;;
    type <- py_get it (py "name") (PStr (py "Unknown")) ;;
    st <- py_get fields (py "status") (PDict []) ;;
    status <- py_get st (py "name") (PStr (py "Unknown")) ;;
    pr <- py_get fields (py "priority") (PDict []) ;;
    priority <- py_get pr (py "name") (PStr (py "None")) ;;
    asg <- py_get fields (py "assignee") (PDict []) ;;
    assignee <- py_get asg (py "displayName") (PStr (py "Unassigned")) ;;
    rp <- py_get fields (py "reporter") (PDict []) ;;
    reporter <- py_get rp (py "displayName") (PStr (py "Unknown Reporter")) ;;
    Ok (PDict [(py "key", issue_key);
               (py "title", title);
               (py "type", type);
               (py "status", status);
               (py "created", PStr formatted_created);
               (py "priority", priority);
               (py "description", PStr description);
               (py "assignee", assignee);
               (py "reporter", reporter);
               (py "comments", PList comments);
               (py "link",
                PStr (rstrip (N.eqb (ch "/")) (server self)
                      ++ py "/browse/" ++ format_value issue_key))]).

(** The [try] block of [get_issue], lines 53 to 96. *)
Definition get_issue_try (self : JiraFetcher) (issue_key expand : pyval)
  : M pyval :=
  issue <<- request (Issue issue_key expand) ;;
  if negb (truthy issue) || negb (isinstance_dict issue) then
    mret (error_doc issue_key (py "Issue not found or missing data"))
  else lift (issue_doc self issue_key issue).

(** [get_issue(issue_key, expand)] *)
Definition get_issue (self : JiraFetcher) (issue_key expand : pyval)
  : M pyval :=
  try_except (get_issue_try self issue_key expand)
    (fun e => mret (error_doc issue_key (str_exn e))).

(** The loop of [search_issues], lines 114 to 117. *)
Fixpoint collect_documents (self : JiraFetcher) (expand : pyval)
  (issues documents : list pyval) : M (list pyval) :=
  match issues with
  | [] => mret documents
  | issue :: rest =>
      key <<- lift (py_get issue (py "key") (PStr (py "UNKNOWN"))) ;;
      doc <<- get_issue self key expand ;;
      has_error <<- lift (py_in (py "error") doc) ;;
      collect_documents self expand rest
        (if has_error then documents else documents ++ [doc])
  end.

(** The [try] block of [search_issues], lines 107 to 119. *)
Definition search_issues_try (self : JiraFetcher) (jql : pystr)
  (fields start limit expand : pyval) : M pyval :=
  results <<- request (Jql jql fields start limit expand) ;;
  missing <<- lift (if negb (truthy results) then Ok true
                    else b <- py_in (py "issues") results ;; Ok (negb b)) ;;
  if (missing : bool) then mret (PList [])
  else
    issues <<- lift (l <- py_get results (py "issues") (PList []) ;;
                     py_iter l) ;;
    documents <<- collect_documents self expand issues [] ;;
    mret (PList documents).

(** [search_issues(jql, fields, start, limit, expand)] *)
Definition search_issues (self : JiraFetcher) (jql : pystr)
  (fields start limit expand : pyval) : M pyval :=
  try_except (search_issues_try self jql fields start limit expand)
    (fun _ => mret (PList [])).

(** [get_project_issues(project_key, start, limit)]; [fields] and [expand]
    take the defaults of [search_issues]. *)
Definition get_project_issues (self : JiraFetcher)
  (project_key start limit : pyval) : M pyval :=
  let jql := py "project = " ++ format_value project_key
             ++ py " ORDER BY created DESC" in
  search_issues self jql (PStr (py "*all")) start limit PNone.

(** One element of the list comprehension of [get_all_projects]. *)
Definition project_entry (project : pyval) : result pyval :=
  k <- py_get project (py "key") PNone ;;
  n <- py_get project (py "name") PNone ;;
  Ok (PDict [(py "key", k); (py "name", n)]).

(** The [try] block of [get_all_projects], lines 138 to 145. *)
Definition get_all_projects_try (self : JiraFetcher) : M pyval :=
  projects <<- request Projects ;;
  if negb (truthy projects) then mret (PList [])
  else
    lift (ps <- py_iter projects ;;
          project_list <- map_result project_entry ps ;;
          Ok (PList project_list)).

(** [get_all_projects()] *)
Definition get_all_projects (self : JiraFetcher) : M pyval :=
  try_except (get_all_projects_try self) (fun _ => mret (PList [])).

(** *** Well-typed issues and the document they become *)

(** Falsy or a string: the values [_clean_text] takes without raising. *)
Definition is_text (v : pyval) : bool :=
  negb (truthy v) || match v with PStr _ => true | _ => false end.

(** The entry under [k] is absent or a dictionary. *)
Definition absent_or_dict (d : list (pystr * pyval)) (k : pystr) : bool :=
  isinstance_dict (field d k (PDict [])).

(** The date of the timestamp under [k], the default timestamp when [k] is
    absent; [None] when the entry is not a string or [fromisoformat]
    rejects it. *)
Definition date_of (d : list (pystr * pyval)) (k : pystr) : option pystr :=
  match field d k (PStr default_created) with
  | PStr s => strftime_ymd (str_replace (py "Z") (py "+00:00") s)
  | _ => None
  end.

(** A comment every step of the loop body accepts. *)
Definition comment_ok (c : pyval) : bool :=
  match c with
  | PDict cd =>
      is_text (field cd (py "body") (PStr []))
      && is_some (date_of cd (py "created"))
      && absent_or_dict cd (py "author")
  | _ => false
  end.

(** The comments the loop runs over: none unless [fields['comment']] is a
    dictionary; [None] when its [comments] entry is not a list. *)
Definition comment_list (fd : list (pystr * pyval)) : option (list pyval) :=
  match field fd (py "comment") PNone with
  | PDict cm =>
      match field cm (py "comments") (PList []) with
      | PList l => Some l
      | _ => None
      end
  | _ => Some []
  end.

(** Fields on which no step of [get_issue] raises. *)
Definition fields_ok (fd : list (pystr * pyval)) : bool :=
  is_text (field fd (py "description") (PStr []))
  && match comment_list fd with
     | Some l => forallb comment_ok l
     | None => false
     end
  && is_some (date_of fd (py "created"))
  && absent_or_dict fd (py "issuetype")
  && absent_or_dict fd (py "status")
  && absent_or_dict fd (py "priority")
  && absent_or_dict fd (py "assignee")
  && absent_or_dict fd (py "reporter").

Definition cleaned (v : pyval) : pystr :=
  match _clean_text v with
  | Ok s => s
  | Raise _ => []
  end.

Definition nested (d : list (pystr * pyval)) (k k2 : pystr) (default : pyval)
  : pyval :=
  match field d k (PDict []) with
  | PDict d2 => field d2 k2 default
  | _ => default
  end.

Definition ymd (d : list (pystr * pyval)) (k : pystr) : pystr :=
  match date_of d k with
  | Some s => s
  | None => []
  end.

Definition comment_shape (c : pyval) : pyval :=
  match c with
  | PDict cd =>
      PDict [(py "body", PStr (cleaned (field cd (py "body") (PStr []))));
             (py "created", PStr (ymd cd (py "created")));
             (py "author",
              nested cd (py "author") (py "displayName") (PStr (py "Unknown")))]
  | _ => PNone
  end.

Definition comments_of (fd : list (pystr * pyval)) : list pyval :=
  match comment_list fd with
  | Some l => l
  | None => []
  end.

Definition issue_link (self : JiraFetcher) (issue_key : pyval) : pystr :=
  rstrip (N.eqb (ch "/")) (server self) ++ py "/browse/" ++ format_value issue_key.

(** The flat document of an issue with well-typed fields. *)
Definition issue_shape (self : JiraFetcher) (issue_key : pyval)
  (fd : list (pystr * pyval)) : pyval :=
  PDict [(py "key", issue_key);
         (py "title", field fd (py "summary") (PStr (py "No Summary")));
         (py "type",
          nested fd (py "issuetype") (py "name") (PStr (py "Unknown")));
         (py "status",
          nested fd (py "status") (py "name") (PStr (py "Unknown")));
         (py "created", PStr (ymd fd (py "created")));
         (py "priority",
          nested fd (py "priority") (py "name") (PStr (py "None")));
         (py "description",
          PStr (cleaned (field fd (py "description") (PStr []))));
         (py "assignee",
          nested fd (py "assignee") (py "displayName")
            (PStr (py "Unassigned")));
         (py "reporter",
          nested fd (py "reporter") (py "displayName")
            (PStr (py "Unknown Reporter")));
         (py "comments", PList (map comment_shape (comments_of fd)));
         (py "link", PStr (issue_link self issue_key))].

(** The entry [d[k][k2]] is absent: [k] is, or [d[k]] is a dictionary
    without [k2]. *)
Definition absent2 (d : list (pystr * pyval)) (k k2 : pystr) : bool :=
  match dict_get d k with
  | None => true
  | Some (PDict d2) => negb (is_some (dict_get d2 k2))
  | Some _ => false
  end.

(** A comment and the entry made from it: the three keys in order, the
    body cleaned. *)
Definition comment_entry (c out : pyval) : Prop :=
  exists cd body date author,
    c = PDict cd
    /\ _clean_text (field cd (py "body") (PStr [])) = Ok body
    /\ date_of cd (py "created") = Some date
    /\ out = PDict [(py "body", PStr body);
                    (py "created", PStr date);
                    (py "author", author)].

(** The defaults of a comment's entry. *)
Definition comment_defaults (c out : pyval) : Prop :=
  forall cd, c = PDict cd ->
    (dict_get cd (py "created") = None ->
     py_lookup out (py "created") = Some (PStr (py "1970-01-01")))
    /\ (absent2 cd (py "author") (py "displayName") = true ->
        py_lookup out (py "author") = Some (PStr (py "Unknown"))).

(** One row of the project list. *)
Definition project_row (project : pyval) : pyval :=
  match project with
  | PDict d =>
      PDict [(py "key", field d (py "key") PNone);
             (py "name", field d (py "name") PNone)]
  | _ => PNone
  end.

(** *** What a search collects *)

Definition has_error (doc : pyval) : bool :=
  is_some (py_lookup doc (py "error")).

(** A document the search keeps: a dictionary without the key [error]. *)
Definition kept (doc : pyval) : Prop :=
  isinstance_dict doc = true /\ has_error doc = false.

(** The key [search_issues] asks [get_issue] for. *)
Definition key_of (issue : pyval) : pyval :=
  match issue with
  | PDict d => field d (py "key") (PStr (py "UNKNOWN"))
  | _ => PNone
  end.

(** The document [get_issue] returns after the requests [t]. *)
Definition get_issue_value (self : JiraFetcher) (issue_key expand : pyval)
  (t : list call) : pyval :=
  match fst (get_issue self issue_key expand t) with
  | Ok doc => doc
  | Raise _ => PNone
  end.

(** The documents of the keys, each fetched after the ones before it. *)
Fixpoint fetch_each (self : JiraFetcher) (expand : pyval)
  (keys : list pyval) (t : list call) : list pyval :=
  match keys with
  | [] => []
  | k :: ks =>
      get_issue_value self k expand t
      :: fetch_each self expand ks (t ++ [Issue k expand])
  end.

End Fetcher.

(** ** The module's script *)

(** The keys of the document [get_issue] builds, in the order of the
    dictionary display of lines 84 to 96. *)
Definition document_keys : list pystr :=
  [py "key"; py "title"; py "type"; py "status"; py "created";
   py "priority"; py "description"; py "assignee"; py "reporter";
   py "comments"; py "link"].

Section Script.

Variable client : list call -> call -> result pyval.
Variable str_value : pyval -> pystr.

(** The line [print] writes for one project, line 157. *)
Definition project_line (project : pyval) : result pystr :=
  k <- py_getitem project (py "key") ;;
  n <- py_getitem project (py "name") ;;
  Ok (format_value str_value k ++ py ": " ++ format_value str_value n).

(** The same line read off a project of the client's answer. *)
Definition row_text (project : pyval) : pystr :=
  match project with
  | PDict d =>
      format_value str_value (field d (py "key") PNone) ++ py ": "
      ++ format_value str_value (field d (py "name") PNone)
  | _ => []
  end.

(** The loop of lines 156 and 157; [stdout] holds the lines written so
    far. *)
Fixpoint print_projects (projects : list pyval) (stdout : list pystr)
  : result unit * list pystr :=
  match projects with
  | [] => (Ok tt, stdout)
  | project :: rest =>
      match project_line project with
      | Ok line => print_projects rest (stdout ++ [line])
      | Raise e => (Raise e, stdout)
      end
  end.

(** Lines 153 to 157, run when the module is loaded: build the fetcher,
    list the projects and print them.  Nothing here catches an
    exception. *)
Definition script (environ : pystr -> option pystr) (t : list call)
  : result unit * list pystr * list call :=
  match __init__ environ with
  | Raise e => (Raise e, [], t)
  | Ok jira_fetcher =>
      match get_all_projects client jira_fetcher t with
      | (Raise e, t') => (Raise e, [], t')
      | (Ok projects, t') =>
          match py_iter projects with
          | Raise e => (Raise e, [], t')
          | Ok ps =>
              let (r, stdout) := print_projects ps [] in (r, stdout, t')
          end
      end
  end.

End Script.

(** ** A fetcher and clients to run the operations on *)

Definition demo_self : JiraFetcher :=
  {| server := py "https://jira.example.com/";
     email := py "dev@example.com";
     api_token := py "secret";
     jira := {| url := py "https://jira.example.com/";
                username := py "dev@example.com";
                password := py "secret";
                cloud := true |} |}.

Definition is_digit (c : char) : bool := (N.leb 48 c && N.leb c 57)%bool.

(** A stand-in for the [datetime] library on the timestamps Jira sends
    ([YYYY-MM-DDTHH:MM:SS.fff+HHMM]): a text that opens with a date of that
    shape gives the date.  The library itself accepts and rejects more. *)
Definition demo_strftime_ymd (s : pystr) : option pystr :=
  match s with
  | y1 :: y2 :: y3 :: y4 :: h1 :: m1 :: m2 :: h2 :: d1 :: d2 :: _ =>
      if forallb is_digit [y1; y2; y3; y4; m1; m2; d1; d2]
         && N.eqb h1 (ch "-") && N.eqb h2 (ch "-")
      then Some (firstn 10 s)
      else None
  | _ => None
  end.

Definition type_name (v : pyval) : pystr :=
  match v with
  | PNone => py "NoneType"
  | PBool _ => py "bool"
  | PInt _ => py "int"
  | PStr _ => py "str"
  | PList _ => py "list"
  | PDict _ => py "dict"
  end.

(** A rendering of exceptions for the examples. *)
Definition demo_str_exn (e : exn) : pystr :=
  match e with
  | AttributeError obj attr =>
      py "'" ++ type_name obj ++ py "' object has no attribute '" ++ attr
      ++ py "'"
  | TypeError obj => py "unexpected '" ++ type_name obj ++ py "'"
  | KeyError k => k
  | ValueError d => py "Invalid isoformat string: " ++ d
  | ApiError what => what
  end.

Definition demo_str_value (v : pyval) : pystr := type_name v.

(** A client that answers every request with the same document. *)
Definition client_returning (v : pyval) : list call -> call -> result pyval :=
  fun _ _ => Ok v.


(** The fields of an issue as Jira sends it, with one comment. *)
Definition demo_fields : list (pystr * pyval) :=
  [(py "summary", PStr (py "Fix login"));
   (py "status", PDict [(py "name", PStr (py "Open"))]);
   (py "created", PStr (py "2024-03-05T10:30:00.000+0000"));
   (py "description", PStr (py "{color:red}Broken{color} [docs|http://x]"));
   (py "comment",
    PDict [(py "comments",
            PList [PDict [(py "body", PStr (py "!shot.png! again"));
                          (py "created",
                           PStr (py "2024-03-06T08:00:00.000Z"))]])])].

Definition demo_issue : pyval :=
  PDict [(py "key", PStr (py "PRJ-1")); (py "fields", PDict demo_fields)].

(** The flat document of [demo_issue]. *)
Definition demo_document : pyval :=
  PDict [(py "key", PStr (py "PRJ-1"));
         (py "title", PStr (py "Fix login"));
         (py "type", PStr (py "Unknown"));
         (py "status", PStr (py "Open"));
         (py "created", PStr (py "2024-03-05"));
         (py "priority", PStr (py "None"));
         (py "description", PStr (py "Broken docs"));
         (py "assignee", PStr (py "Unassigned"));
         (py "reporter", PStr (py "Unknown Reporter"));
         (py "comments",
          PList [PDict [(py "body", PStr (py "again"));
                        (py "created", PStr (py "2024-03-06"));
                        (py "author", PStr (py "Unknown"))]]);
         (py "link", PStr (py "https://jira.example.com/browse/PRJ-1"))].

(** An issue with nothing but one empty comment. *)
Definition bare_fields : list (pystr * pyval) :=
  [(py "comment", PDict [(py "comments", PList [PDict []])])].

Definition bare_issue : pyval := PDict [(py "fields", PDict bare_fields)].

(** An issue nobody is assigned to, as Jira sends it: [assignee] is
    [null]. *)
Definition unassigned_fields : list (pystr * pyval) :=
  [(py "summary", PStr (py "Fix login"));
   (py "created", PStr (py "2024-03-05T10:30:00.000+00:00"));
   (py "assignee", PNone)].

Definition unassigned_issue : pyval :=
  PDict [(py "key", PStr (py "PRJ-7"));
         (py "fields", PDict unassigned_fields)].

(** An issue without a summary whose status is a bare string. *)
Definition flat_status_fields : list (pystr * pyval) :=
  [(py "created", PStr (py "2024-03-05T10:30:00.000+00:00"));
   (py "status", PStr (py "Open"))].

Definition flat_status_issue : pyval :=
  PDict [(py "key", PStr (py "PRJ-8"));
         (py "fields", PDict flat_status_fields)].

(** The issues a search finds: one the client knows, one it does not, and
    one without a key. *)
Definition demo_found : list pyval :=
  [PDict [(py "key", PStr (py "PRJ-1"))];
   PDict [(py "key", PStr (py "PRJ-2"))];
   PDict []].

Definition demo_search : list (pystr * pyval) :=
  [(py "issues", PList demo_found)].

Definition demo_projects : list pyval :=
  [PDict [(py "key", PStr (py "PRJ")); (py "name", PStr (py "Project"))];
   PDict [(py "key", PStr (py "OPS"))]].

(** A client with two projects and the issue above. *)
Definition demo_client : list call -> call -> result pyval :=
  fun _ c =>
    match c with
    | Issue (PStr k) _ =>
        if str_eqb k (py "PRJ-1") then Ok demo_issue
        else Raise (ApiError (py "Issue does not exist"))
    | Issue _ _ => Raise (ApiError (py "Issue does not exist"))
    | Jql _ _ _ _ _ => Ok (PDict demo_search)
    | Projects => Ok (PList demo_projects)
    end.

(** An issue whose description is a document tree, not a text. *)
Definition tree_fields : list (pystr * pyval) :=
  [(py "summary", PStr (py "Fix login"));
   (py "description", PDict [(py "type", PStr (py "doc"))])].

Definition tree_issue : pyval := PDict [(py "fields", PDict tree_fields)].

(** An issue with a fine comment followed by one that is a bare string. *)
Definition torn_comments : list (pystr * pyval) :=
  [(py "comments", PList [PDict []; PStr (py "oops")])].

Definition torn_fields : list (pystr * pyval) :=
  [(py "summary", PStr (py "Fix login")); (py "comment", PDict torn_comments)].

Definition torn_issue : pyval := PDict [(py "fields", PDict torn_fields)].

(** A search answer whose second element is a bare key. *)
Definition torn_search : list (pystr * pyval) :=
  [(py "issues",
    PList ([PDict [(py "key", PStr (py "PRJ-1"))]]
           ++ PStr (py "PRJ-2") :: [PDict [(py "key", PStr (py "PRJ-3"))]]))].

(** A client that knows every issue and answers a search with
    [torn_search], the projects with a list torn the same way. *)
Definition torn_client : list call -> call -> result pyval :=
  fun _ c =>
    match c with
    | Issue _ _ => Ok demo_issue
    | Jql _ _ _ _ _ => Ok (PDict torn_search)
    | Projects =>
        Ok (PList ([PDict [(py "key", PStr (py "PRJ"))]]
                   ++ PNone :: [PDict [(py "key", PStr (py "OPS"))]]))
    end.

(** The fetcher of [demo_self] with more slashes after the server. *)
Definition slashed_self : JiraFetcher :=
  {| server := py "https://jira.example.com///";
     email := py "dev@example.com";
     api_token := py "secret";
     jira := {| url := py "https://jira.example.com///";
                username := py "dev@example.com";
                password := py "secret";
                cloud := true |} |}.

(** An environment with the three variables set. *)
Definition demo_environ (name : pystr) : option pystr :=
  if str_eqb name (py "JIRA_SITE") then Some (py "https://jira.example.com/")
  else if str_eqb name (py "JIRA_EMAIL") then Some (py "dev@example.com")
  else if str_eqb name (py "JIRA_API_TOKEN") then Some (py "secret")
  else None.

(** The same environment with an empty token. *)
Definition demo_environ_no_token (name : pystr) : option pystr :=
  if str_eqb name (py "JIRA_API_TOKEN") then Some [] else demo_environ name.

(** ** Scanning *)

Lemma scan_ext (m1 m2 : pystr -> option (pystr * pystr)) :
  (forall s, m1 s = m2 s) -> forall s k, scan m1 k s = scan m2 k s.
Proof.
  intros H s; induction s as [|c s IH]; intros k; simpl; [reflexivity|].
  destruct k as [|k]; [|apply IH].
  rewrite H. destruct (m2 (c :: s)) as [[out rest]|]; rewrite IH; reflexivity.
Qed.

(** Passing over the rest of an occurrence resumes the scan after it. *)
Lemma scan_skip m (pre rest : pystr) :
  scan m (List.length pre) (pre ++ rest) = scan m 0 rest.
Proof.
  induction pre as [|c pre IH]; simpl; [|exact IH].
  destruct rest; reflexivity.
Qed.

(** A matcher that only fires on the character [x] leaves a text without
    [x] as it is. *)
Lemma scan_no_trigger m (x : char) :
  (forall c t, c <> x -> m (c :: t) = None) ->
  forall s, ~ In x s -> scan m 0 s = s.
Proof.
  intros Hm s; induction s as [|c s IH]; intros Hx; simpl; [reflexivity|].
  rewrite Hm by (intros ->; apply Hx; left; reflexivity).
  rewrite IH; [reflexivity|]. intros H; apply Hx; right; exact H.
Qed.

Lemma take_drop_while f (s : pystr) :
  take_while f s ++ drop_while f s = s.
Proof.
  induction s as [|c s IH]; simpl; [reflexivity|].
  destruct (f c); simpl; [rewrite IH|]; reflexivity.
Qed.

(** ** The matcher on the source's patterns *)

Lemma run_lit {R} (p s : pystr) g (k : pystr -> option pystr -> option R) :
  Re.run (Re.lit p) s g k =
  match strip_prefix p s with
  | Some t => k t g
  | None => None
  end.
Proof.
  revert s; induction p as [|x p IH]; intros s; simpl; [reflexivity|].
  destruct s as [|c s]; [reflexivity|].
  destruct (N.eqb c x); [apply IH|reflexivity].
Qed.

Lemma run_cat {R} r1 r2 s g (k : pystr -> option pystr -> option R) :
  Re.run (Re.Cat r1 r2) s g k =
  Re.run r1 s g (fun s1 g1 => Re.run r2 s1 g1 k).
Proof. reflexivity. Qed.

Lemma run_chr {R} x s g (k : pystr -> option pystr -> option R) :
  Re.run (Re.Chr (Re.Lit x)) s g k =
  match s with
  | c :: s' => if N.eqb c x then k s' g else None
  | [] => None
  end.
Proof. reflexivity. Qed.

Lemma run_greedy {R} n p s g (k : pystr -> option pystr -> option R) :
  Re.run (Re.Many Re.Greedy n p) s g k = Re.greedy p n (fun s' => k s' g) s.
Proof. reflexivity. Qed.

Lemma run_lazy {R} n p s g (k : pystr -> option pystr -> option R) :
  Re.run (Re.Many Re.Lazy n p) s g k = Re.lazy p n (fun s' => k s' g) s.
Proof. reflexivity. Qed.

Lemma lazy_eq {R} p (k : pystr -> option R) s :
  Re.lazy p 0 k s =
  match k s with
  | Some r => Some r
  | None =>
      match s with
      | c :: s' => if Re.accepts p c then Re.lazy p 0 k s' else None
      | [] => None
      end
  end.
Proof. destruct s; reflexivity. Qed.

(** [[^x]{n,}] followed by [x]: the whole run of characters other than [x]
    is taken, and [x] must stand after it. *)
Lemma greedy_not_then_lit {R} (x : char) g
  (k : pystr -> option pystr -> option R) n s :
  Re.greedy (Re.Not x) n (fun s' => Re.run (Re.Chr (Re.Lit x)) s' g k) s =
  if Nat.leb n (List.length (take_while (is_not x) s)) then
    match drop_while (is_not x) s with
    | _ :: r => k r g
    | [] => None
    end
  else None.
Proof.
  revert n; induction s as [|c s IH]; intros n.
  - destruct n; reflexivity.
  - cbn [Re.greedy Re.accepts take_while drop_while]. unfold is_not at 1 3.
    destruct (negb (N.eqb c x)) eqn:E.
    + rewrite IH. cbn [Re.run Re.accepts]. fold (is_not x c).
      apply negb_true_iff in E. rewrite E.
      destruct n as [|n]; cbn [Nat.pred List.length Nat.leb].
      * destruct (drop_while (is_not x) s) as [|d r]; [reflexivity|].
        destruct (k r g); reflexivity.
      * destruct (Nat.leb n (List.length (take_while (is_not x) s)));
          [|reflexivity].
        destruct (drop_while (is_not x) s) as [|d r]; [reflexivity|].
        destruct (k r g); reflexivity.
    + apply negb_false_iff in E. cbn [Re.run Re.accepts]. rewrite E.
      destruct n; reflexivity.
Qed.

(** [x+] with nothing after it takes the whole run of [x]. *)
Lemma greedy_lit_run {R} (x : char) (k : pystr -> option R) n s :
  (forall t, k t <> None) ->
  Re.greedy (Re.Lit x) n k s =
  if Nat.leb n (List.length (take_while (fun d => N.eqb d x) s)) then
    k (drop_while (fun d => N.eqb d x) s)
  else None.
Proof.
  intros Hk; revert n; induction s as [|c s IH]; intros n.
  - destruct n; reflexivity.
  - cbn [Re.greedy Re.accepts take_while drop_while].
    destruct (N.eqb c x) eqn:E.
    + rewrite IH. destruct n as [|n]; cbn [Nat.pred List.length Nat.leb].
      * destruct (k (drop_while (fun d => N.eqb d x) s)) eqn:K;
          [reflexivity|]. exfalso; exact (Hk _ K).
      * destruct (Nat.leb n _); [|reflexivity].
        destruct (k (drop_while (fun d => N.eqb d x) s)); reflexivity.
    + destruct n; reflexivity.
Qed.

Lemma match_color_open s :
  match Re.match_at re_color_open s with
  | Some (rest, g) => Some (Re.expand [] g, rest)
  | None => None
  end = color_open_at s.
Proof.
  unfold Re.match_at, re_color_open, color_open_at.
  rewrite run_cat, run_lit.
  destruct (strip_prefix (py "{color:") s) as [t|]; [|reflexivity].
  rewrite run_cat, run_greedy, greedy_not_then_lit.
  destruct (take_while (is_not (ch "}")) t) as [|a l]; cbn [List.length Nat.leb].
  - reflexivity.
  - destruct (drop_while (is_not (ch "}")) t); reflexivity.
Qed.

Lemma match_code_block_lazy t :
  Re.lazy Re.DotAll 0
    (fun s' => Re.run (Re.lit (py "}}")) s' None
                 (fun rest g => Some (rest, g))) t =
  match after_first (py "}}") t with
  | Some rest => Some (rest, None)
  | None => None
  end.
Proof.
  induction t as [|c t IH]; rewrite lazy_eq, run_lit.
  - reflexivity.
  - cbn [after_first].
    destruct (strip_prefix (py "}}") (c :: t)); [reflexivity|].
    cbn [Re.accepts]. exact IH.
Qed.

Lemma match_code_block s :
  match Re.match_at re_code_block s with
  | Some (rest, g) => Some (Re.expand [] g, rest)
  | None => None
  end = code_block_at s.
Proof.
  unfold Re.match_at, re_code_block, code_block_at.
  rewrite run_cat, run_lit.
  destruct (strip_prefix (py "{{") s) as [t|]; [|reflexivity].
  rewrite run_cat, run_lazy, match_code_block_lazy.
  destruct (after_first (py "}}") t); reflexivity.
Qed.

Lemma run_opt {R} p s g (k : pystr -> option pystr -> option R) :
  Re.run (Re.Opt p) s g k =
  match s with
  | c :: s' =>
      if Re.accepts p c then
        match k s' g with
        | Some x => Some x
        | None => k s g
        end
      else k s g
  | [] => k s g
  end.
Proof. reflexivity. Qed.

Lemma run_group {R} r s g (k : pystr -> option pystr -> option R) :
  Re.run (Re.Group r) s g k =
  Re.run r s g
    (fun s1 _ => k s1 (Some (firstn (List.length s - List.length s1) s))).
Proof. reflexivity. Qed.

Lemma lazy_ext {R} p (k1 k2 : pystr -> option R) :
  (forall s, k1 s = k2 s) -> forall s, Re.lazy p 0 k1 s = Re.lazy p 0 k2 s.
Proof.
  intros H s; induction s as [|c s IH]; rewrite (lazy_eq p k1), (lazy_eq p k2), H.
  - reflexivity.
  - rewrite IH; reflexivity.
Qed.

Lemma match_image_tail u g :
  Re.run (Re.Cat (Re.Many Re.Lazy 0 (Re.Not (ch "]")))
            (Re.Chr (Re.Lit (ch "!")))) u g
    (fun rest g' => Some (rest, g')) =
  match image_end u with
  | Some rest => Some (rest, g)
  | None => None
  end.
Proof.
  rewrite run_cat, run_lazy.
  induction u as [|c u IH]; rewrite lazy_eq, run_chr; [reflexivity|].
  cbn [image_end Re.accepts].
  destruct (N.eqb c (ch "!")); [reflexivity|].
  destruct (N.eqb c (ch "]")); [reflexivity|exact IH].
Qed.

Lemma match_image s :
  match Re.match_at re_image s with
  | Some (rest, g) => Some (Re.expand [] g, rest)
  | None => None
  end = image_at s.
Proof.
  unfold Re.match_at, re_image, image_at.
  rewrite run_cat, run_chr.
  destruct s as [|c t]; [reflexivity|].
  destruct (N.eqb c (ch "!")); [|reflexivity].
  rewrite run_cat, run_opt.
  assert (E : forall u,
    match
      match image_end u with
      | Some rest => Some (rest, @None pystr)
      | None => None
      end
    with
    | Some (rest, g) => Some (Re.expand [] g, rest)
    | None => None
    end =
    match image_end u with
    | Some rest => Some ([], rest)
    | None => None
    end) by (intros u; destruct (image_end u); reflexivity).
  destruct t as [|d t']; [reflexivity|].
  cbn [Re.accepts].
  destruct (N.eqb d (ch "[")) eqn:Ed.
  - apply N.eqb_eq in Ed; subst d.
    rewrite !match_image_tail. cbn [image_end].
    change (N.eqb (ch "[") (ch "!")) with false.
    change (N.eqb (ch "[") (ch "]")) with false.
    cbv iota. destruct (image_end t'); reflexivity.
  - rewrite match_image_tail. apply E.
Qed.

Lemma match_link_target s g :
  Re.run (Re.Cat (Re.Chr (Re.Lit (ch "|")))
            (Re.Cat (Re.Many Re.Greedy 1 (Re.Not (ch "]")))
               (Re.Chr (Re.Lit (ch "]"))))) s g
    (fun rest g' => Some (rest, g')) =
  match link_target s with
  | Some rest => Some (rest, g)
  | None => None
  end.
Proof.
  rewrite run_cat, run_chr. unfold link_target.
  destruct s as [|c u]; [reflexivity|].
  destruct (N.eqb c (ch "|")); [|reflexivity].
  rewrite run_cat, run_greedy, greedy_not_then_lit.
  destruct (take_while (is_not (ch "]")) u) as [|a l];
    cbn [List.length Nat.leb]; [reflexivity|].
  destruct (drop_while (is_not (ch "]")) u); reflexivity.
Qed.

Lemma firstn_consumed (pre t : pystr) :
  firstn (List.length (pre ++ t) - List.length t) (pre ++ t) = pre.
Proof.
  rewrite length_app, Nat.add_sub, firstn_app, Nat.sub_diag, firstn_all.
  cbn [firstn]. apply app_nil_r.
Qed.

Lemma match_link_lazy (t0 : pystr) t :
  forall pre, t0 = pre ++ t ->
  Re.lazy Re.Dot 0
    (fun s' =>
       match link_target s' with
       | Some rest =>
           Some (rest, Some (firstn (List.length t0 - List.length s') t0))
       | None => None
       end) t =
  match link_split t with
  | Some (display, rest) => Some (rest, Some (pre ++ display))
  | None => None
  end.
Proof.
  induction t as [|c t IH]; intros pre E; rewrite lazy_eq.
  - reflexivity.
  - cbn [link_split].
    destruct (link_target (c :: t)) as [rest|].
    + subst t0. rewrite firstn_consumed, app_nil_r. reflexivity.
    + cbn [Re.accepts]. destruct (N.eqb c NL); [reflexivity|].
      cbn [negb]. rewrite (IH (pre ++ [c])).
      * destruct (link_split t) as [[d rest]|]; [|reflexivity].
        rewrite <- app_assoc. reflexivity.
      * rewrite <- app_assoc. exact E.
Qed.

Lemma match_link s :
  match Re.match_at re_link s with
  | Some (rest, g) => Some (Re.expand [Re.Backref1] g, rest)
  | None => None
  end = link_at s.
Proof.
  unfold Re.match_at, re_link, link_at.
  rewrite run_cat, run_chr.
  destruct s as [|c t]; [reflexivity|].
  destruct (N.eqb c (ch "[")); [|reflexivity].
  rewrite run_cat, run_group, run_lazy.
  rewrite (lazy_ext _ _ _ (fun s' => match_link_target s' _)).
  rewrite (match_link_lazy t t []) by reflexivity.
  destruct (link_split t) as [[d rest]|]; [|reflexivity].
  cbn [Re.expand flat_map app]. rewrite app_nil_r. reflexivity.
Qed.

Lemma match_newlines s :
  match Re.match_at re_newlines s with
  | Some (rest, g) => Some (Re.expand [Re.Text [NL]] g, rest)
  | None => None
  end = newline_run_at s.
Proof.
  unfold Re.match_at, re_newlines, newline_run_at.
  rewrite run_greedy, greedy_lit_run by discriminate.
  destruct s as [|c t]; [reflexivity|].
  cbn [take_while drop_while].
  destruct (N.eqb c NL); reflexivity.
Qed.

(** Each substitution of the source is the scanner of its stage. *)
Lemma sub_color_open s : Re.sub re_color_open [] s = remove_color_open s.
Proof. apply scan_ext, match_color_open. Qed.

Lemma replace_color_close s :
  str_replace (py "{color}") [] s = remove_color_close s.
Proof. reflexivity. Qed.

Lemma sub_code_block s : Re.sub re_code_block [] s = remove_code_blocks s.
Proof. apply scan_ext, match_code_block. Qed.

Lemma sub_image s : Re.sub re_image [] s = remove_images s.
Proof. apply scan_ext, match_image. Qed.

Lemma sub_link s : Re.sub re_link [Re.Backref1] s = replace_links s.
Proof. apply scan_ext, match_link. Qed.

Lemma sub_newlines s :
  Re.sub re_newlines [Re.Text [NL]] s = collapse_newlines s.
Proof. apply scan_ext, match_newlines. Qed.

Lemma clean_body_stages s : clean_body s = clean_stages s.
Proof.
  unfold clean_body, clean_stages.
  rewrite sub_color_open, replace_color_close, sub_code_block, sub_image,
    sub_link, sub_newlines.
  reflexivity.
Qed.

(** ** Occurrences are never empty

    [scan] stands for [re.sub] and [str.replace] on matchers that consume
    at least one character; every matcher of [_clean_text] does, and for
    such a matcher the scan resumes right after the occurrence. *)

Lemma scan_match m c s out rest :
  consumes m ->
  m (c :: s) = Some (out, rest) ->
  scan m 0 (c :: s) = out ++ scan m 0 rest.
Proof.
  intros Hm E. cbn [scan]. rewrite E.
  destruct (Hm _ _ _ E) as (c' & pre & Hs). injection Hs as _ ->.
  rewrite length_app, Nat.add_sub, scan_skip. reflexivity.
Qed.

Lemma strip_prefix_app p s t : strip_prefix p s = Some t -> s = p ++ t.
Proof.
  revert s; induction p as [|x p IH]; intros s; cbn [strip_prefix].
  - intros E; injection E as ->; reflexivity.
  - destruct s as [|c s]; [discriminate|].
    destruct (N.eqb c x) eqn:Ec; [|discriminate].
    apply N.eqb_eq in Ec; subst c. intros E; rewrite (IH _ E); reflexivity.
Qed.

Lemma after_first_suffix p s rest :
  after_first p s = Some rest -> exists pre, s = pre ++ rest.
Proof.
  induction s as [|c s IH]; cbn [after_first].
  - destruct (strip_prefix p []) eqn:E; [|discriminate].
    intros H; injection H as ->. exists p. exact (strip_prefix_app _ _ _ E).
  - destruct (strip_prefix p (c :: s)) eqn:E.
    + intros H; injection H as ->. exists p. exact (strip_prefix_app _ _ _ E).
    + intros H. destruct (IH H) as [pre ->]. exists (c :: pre). reflexivity.
Qed.

Lemma image_end_suffix s rest :
  image_end s = Some rest -> exists pre, s = pre ++ rest.
Proof.
  induction s as [|c s IH]; cbn [image_end]; [discriminate|].
  destruct (N.eqb c (ch "!")).
  - intros H; injection H as ->. exists [c]. reflexivity.
  - destruct (N.eqb c (ch "]")); [discriminate|].
    intros H. destruct (IH H) as [pre ->]. exists (c :: pre). reflexivity.
Qed.

Lemma run_then_close (x : char) (u : pystr) a l d rest :
  take_while (is_not x) u = a :: l ->
  drop_while (is_not x) u = d :: rest ->
  u = (a :: l ++ [d]) ++ rest.
Proof.
  intros Ht Hd. rewrite <- (take_drop_while (is_not x) u), Ht, Hd.
  cbn [app]. rewrite <- app_assoc. reflexivity.
Qed.

Lemma link_target_suffix s rest :
  link_target s = Some rest -> exists c pre, s = c :: pre ++ rest.
Proof.
  unfold link_target. destruct s as [|c u]; [discriminate|].
  destruct (N.eqb c (ch "|")); [|discriminate].
  destruct (take_while (is_not (ch "]")) u) as [|a l] eqn:Ht; [discriminate|].
  destruct (drop_while (is_not (ch "]")) u) as [|d r] eqn:Hd; [discriminate|].
  intros H; injection H as <-.
  exists c, (a :: l ++ [d]). rewrite (run_then_close _ _ _ _ _ _ Ht Hd) at 1.
  reflexivity.
Qed.

Lemma link_split_suffix s display rest :
  link_split s = Some (display, rest) -> exists pre, s = pre ++ rest.
Proof.
  revert display; induction s as [|c s IH]; intros display;
    cbn [link_split].
  - cbn [link_target]. discriminate.
  - destruct (link_target (c :: s)) as [r|] eqn:Et.
    + intros H; injection H as _ <-.
      destruct (link_target_suffix _ _ Et) as (c' & pre & E).
      exists (c' :: pre). exact E.
    + destruct (N.eqb c NL); [discriminate|].
      destruct (link_split s) as [[d r]|]; [|discriminate].
      intros H; injection H as _ <-.
      destruct (IH d eq_refl) as [pre ->]. exists (c :: pre). reflexivity.
Qed.

Lemma color_open_consumes : consumes color_open_at.
Proof.
  intros s out rest. unfold color_open_at.
  destruct (strip_prefix (py "{color:") s) as [t|] eqn:Ep; [|discriminate].
  destruct (take_while (is_not (ch "}")) t) as [|a l] eqn:Ht; [discriminate|].
  destruct (drop_while (is_not (ch "}")) t) as [|d r] eqn:Hd; [discriminate|].
  intros H; injection H as _ <-.
  rewrite (strip_prefix_app _ _ _ Ep), (run_then_close _ _ _ _ _ _ Ht Hd).
  exists (ch "{"), (py "color:" ++ a :: l ++ [d]).
  change (py "{color:") with (ch "{" :: py "color:").
  cbn [app]. f_equal.
Qed.

Lemma color_close_consumes : consumes color_close_at.
Proof.
  intros s out rest. unfold color_close_at.
  destruct (strip_prefix (py "{color}") s) as [t|] eqn:Ep; [|discriminate].
  intros H; injection H as _ <-. rewrite (strip_prefix_app _ _ _ Ep).
  exists (ch "{"), (py "color}"). reflexivity.
Qed.

Lemma code_block_consumes : consumes code_block_at.
Proof.
  intros s out rest. unfold code_block_at.
  destruct (strip_prefix (py "{{") s) as [t|] eqn:Ep; [|discriminate].
  destruct (after_first (py "}}") t) as [r|] eqn:Ea; [|discriminate].
  intros H; injection H as _ <-.
  destruct (after_first_suffix _ _ _ Ea) as [pre ->].
  rewrite (strip_prefix_app _ _ _ Ep).
  exists (ch "{"), (ch "{" :: pre). reflexivity.
Qed.

Lemma image_consumes : consumes image_at.
Proof.
  intros s out rest. unfold image_at. destruct s as [|c t]; [discriminate|].
  destruct (N.eqb c (ch "!")); [|discriminate].
  destruct (image_end t) as [r|] eqn:Ei; [|discriminate].
  intros H; injection H as _ <-.
  destruct (image_end_suffix _ _ Ei) as [pre ->]. exists c, pre. reflexivity.
Qed.

Lemma link_consumes : consumes link_at.
Proof.
  intros s out rest. unfold link_at. destruct s as [|c t]; [discriminate|].
  destruct (N.eqb c (ch "[")); [|discriminate].
  intros H. destruct (link_split_suffix _ _ _ H) as [pre ->].
  exists c, pre. reflexivity.
Qed.

Lemma newline_run_consumes : consumes newline_run_at.
Proof.
  intros s out rest. unfold newline_run_at.
  destruct s as [|c t]; [discriminate|].
  destruct (N.eqb c NL); [|discriminate].
  intros H; injection H as _ <-.
  exists c, (take_while (fun d => N.eqb d NL) t).
  rewrite take_drop_while. reflexivity.
Qed.

(** ** Stripping and newline runs *)

Lemma drop_while_head f (s : pystr) c r :
  drop_while f s = c :: r -> f c = false.
Proof.
  induction s as [|a s IH]; simpl; [discriminate|].
  destruct (f a) eqn:E; [exact IH|].
  intros H; injection H as -> _; exact E.
Qed.

Lemma drop_while_stop f (s : pystr) c :
  f c = false -> drop_while f (c :: s) = c :: s.
Proof. intros E; simpl; rewrite E; reflexivity. Qed.

Lemma drop_while_idem f (s : pystr) :
  drop_while f (drop_while f s) = drop_while f s.
Proof.
  destruct (drop_while f s) as [|c r] eqn:E; [reflexivity|].
  apply drop_while_stop, (drop_while_head f s c r E).
Qed.

Lemma drop_while_snoc f (a : pystr) c :
  f c = false -> drop_while f (a ++ [c]) = drop_while f a ++ [c].
Proof.
  intros E; induction a as [|x a IH]; simpl.
  - rewrite E; reflexivity.
  - destruct (f x); [exact IH|reflexivity].
Qed.

Lemma rstrip_cons f c (s : pystr) :
  f c = false -> rstrip f (c :: s) = c :: rstrip f s.
Proof.
  intros E; unfold rstrip; simpl.
  rewrite (drop_while_snoc f (rev s) c E), rev_unit; reflexivity.
Qed.

Lemma rstrip_idem f (s : pystr) : rstrip f (rstrip f s) = rstrip f s.
Proof. unfold rstrip; rewrite rev_involutive, drop_while_idem; reflexivity. Qed.

Lemma strip_idem s : strip (strip s) = strip s.
Proof.
  unfold strip, lstrip.
  destruct (drop_while isspace s) as [|c r] eqn:E; [reflexivity|].
  pose proof (drop_while_head _ _ _ _ E) as Hc.
  rewrite (rstrip_cons _ _ _ Hc), (drop_while_stop _ _ _ Hc),
    (rstrip_cons _ _ _ Hc), rstrip_idem.
  reflexivity.
Qed.

(** What [strip] returns is a piece of its argument. *)
Lemma strip_infix s : exists l r, s = l ++ strip s ++ r.
Proof.
  unfold strip, lstrip, rstrip.
  set (y := drop_while isspace s).
  exists (take_while isspace s), (rev (take_while isspace (rev y))).
  rewrite <- rev_app_distr, take_drop_while, rev_involutive.
  subst y; symmetry; apply take_drop_while.
Qed.

Lemma adj_free_app_r (a b : pystr) :
  adj_free (a ++ b) = true -> adj_free b = true.
Proof.
  induction a as [|c a IH]; [trivial|].
  cbn [app adj_free]. intros H; apply andb_true_iff in H; apply IH, H.
Qed.

Lemma adj_free_app_l (a b : pystr) :
  adj_free (a ++ b) = true -> adj_free a = true.
Proof.
  induction a as [|c a IH]; [reflexivity|].
  cbn [app adj_free]. intros H; apply andb_true_iff in H as [H1 H2].
  rewrite (IH H2), andb_true_r.
  destruct a as [|d a]; [reflexivity|exact H1].
Qed.

Lemma adj_free_strip s : adj_free s = true -> adj_free (strip s) = true.
Proof.
  destruct (strip_infix s) as (l & r & E); intros H.
  rewrite E in H. exact (adj_free_app_l _ _ (adj_free_app_r _ _ H)).
Qed.

Lemma collapse_cons c t :
  collapse_newlines (c :: t) =
  if N.eqb c NL then
    NL :: collapse_newlines (drop_while (fun d => N.eqb d NL) t)
  else c :: collapse_newlines t.
Proof.
  unfold collapse_newlines; cbn [scan newline_run_at].
  destruct (N.eqb c NL); [|reflexivity].
  set (f := fun d => N.eqb d NL).
  pose proof (scan_skip newline_run_at (take_while f t) (drop_while f t)) as E.
  pose proof (f_equal (@List.length N) (take_drop_while f t)) as L.
  rewrite length_app in L. rewrite take_drop_while in E.
  replace (List.length t - List.length (drop_while f t))
    with (List.length (take_while f t)) by lia.
  rewrite E; reflexivity.
Qed.

Lemma drop_while_length f (s : pystr) :
  List.length (drop_while f s) <= List.length s.
Proof.
  induction s as [|c s IH]; simpl; [lia|].
  destruct (f c); simpl; lia.
Qed.

Lemma adj_free_collapse s : adj_free (collapse_newlines s) = true.
Proof.
  remember (List.length s) as n eqn:L.
  assert (H : List.length s <= n) by lia. clear L.
  revert s H; induction n as [|n IH]; intros s H.
  - destruct s; [reflexivity|simpl in H; lia].
  - destruct s as [|c t]; [reflexivity|]. simpl in H.
    rewrite collapse_cons. destruct (N.eqb c NL) eqn:Ec.
    + set (f := fun d => N.eqb d NL).
      pose proof (drop_while_length f t) as Hl.
      destruct (drop_while f t) as [|d u] eqn:Ed; [reflexivity|].
      pose proof (drop_while_head f t d u Ed) as Hd. unfold f in Hd.
      specialize (IH (d :: u) ltac:(lia)).
      rewrite collapse_cons, Hd in IH |- *.
      remember (d :: collapse_newlines u) as w eqn:Ew.
      cbn [adj_free]. rewrite IH. subst w.
      rewrite Hd, andb_false_r. reflexivity.
    + specialize (IH t ltac:(lia)).
      cbn [adj_free]. rewrite IH, Ec.
      destruct (collapse_newlines t); reflexivity.
Qed.

Lemma collapse_fixed s : adj_free s = true -> collapse_newlines s = s.
Proof.
  induction s as [|c t IH]; [reflexivity|].
  cbn [adj_free]. intros H; apply andb_true_iff in H as [H1 H2].
  rewrite collapse_cons. destruct (N.eqb c NL) eqn:Ec.
  - apply N.eqb_eq in Ec; subst c.
    destruct t as [|d u]; [reflexivity|].
    cbn [andb] in H1. apply negb_true_iff in H1.
    rewrite (drop_while_stop (fun d => N.eqb d NL) u d H1), (IH H2).
    reflexivity.
  - rewrite (IH H2); reflexivity.
Qed.

(** ** Text without markup characters *)

Lemma plain_not_in s :
  plain s = true ->
  ~ In (ch "{") s /\ ~ In (ch "!") s /\ ~ In (ch "[") s.
Proof.
  unfold plain; rewrite forallb_forall; intros H.
  repeat split; intros Hin; specialize (H _ Hin); discriminate H.
Qed.

Lemma color_open_trigger c t : c <> ch "{" -> color_open_at (c :: t) = None.
Proof.
  intros H; apply N.eqb_neq in H. unfold color_open_at.
  change (py "{color:") with (ch "{" :: py "color:").
  cbn [strip_prefix]. rewrite H; reflexivity.
Qed.

Lemma color_close_trigger c t : c <> ch "{" -> color_close_at (c :: t) = None.
Proof.
  intros H; apply N.eqb_neq in H. unfold color_close_at.
  change (py "{color}") with (ch "{" :: py "color}").
  cbn [strip_prefix]. rewrite H; reflexivity.
Qed.

Lemma code_block_trigger c t : c <> ch "{" -> code_block_at (c :: t) = None.
Proof.
  intros H; apply N.eqb_neq in H. unfold code_block_at.
  change (py "{{") with (ch "{" :: py "{").
  cbn [strip_prefix]. rewrite H; reflexivity.
Qed.

Lemma image_trigger c t : c <> ch "!" -> image_at (c :: t) = None.
Proof. intros H; apply N.eqb_neq in H. cbn [image_at]. rewrite H; reflexivity. Qed.

Lemma link_trigger c t : c <> ch "[" -> link_at (c :: t) = None.
Proof. intros H; apply N.eqb_neq in H. cbn [link_at]. rewrite H; reflexivity. Qed.

(** On plain text only the last two stages can change anything. *)
Lemma clean_stages_plain s :
  plain s = true -> clean_stages s = strip (collapse_newlines s).
Proof.
  intros H; apply plain_not_in in H as (H1 & H2 & H3).
  unfold clean_stages, remove_color_open, remove_color_close,
    remove_code_blocks, remove_images, replace_links.
  rewrite (scan_no_trigger _ _ color_open_trigger s H1),
    (scan_no_trigger _ _ color_close_trigger s H1),
    (scan_no_trigger _ _ code_block_trigger s H1),
    (scan_no_trigger _ _ image_trigger s H2),
    (scan_no_trigger _ _ link_trigger s H3).
  reflexivity.
Qed.

(** The last two stages leave their own result as it is. *)
Lemma strip_collapse_fixed s :
  let t := strip (collapse_newlines s) in strip (collapse_newlines t) = t.
Proof.
  intros t. subst t.
  rewrite (collapse_fixed (strip (collapse_newlines s))).
  - apply strip_idem.
  - apply adj_free_strip, adj_free_collapse.
Qed.

(** ** [_clean_text]: the claims *)

Lemma clean_text_str s : _clean_text (PStr s) = Ok (clean_stages s).
Proof.
  destruct s as [|c s]; [reflexivity|].
  unfold _clean_text; cbn [truthy negb].
  rewrite clean_body_stages; reflexivity.
Qed.

Lemma clean_text_falsy text : truthy text = false -> _clean_text text = Ok [].
Proof. intros H; unfold _clean_text; rewrite H; reflexivity. Qed.

(** C1, as stated, fails: the text [!a]b!] has the form [!...!] of an image
    reference, and [_clean_text] returns it whole, because the pattern
    admits no []] between the two exclamation marks. *)
Lemma clean_text_keeps_bracketed_image :
  py "!a]b!" = py "!" ++ py "a]b" ++ py "!"
  /\ _clean_text (PStr (py "!a]b!")) = Ok (py "!a]b!").
Proof. split; reflexivity. Qed.

(** C1, amended: on every string [_clean_text] is the six stages in their
    order, each a left-to-right scan for occurrences that do not overlap:
    it removes each opening marker [{color:v}] whose value [v] is not
    empty and holds no [}], removes each [{color}], removes each code block
    from [{{] to the first [}}] after it (newlines included), removes each
    span from [!] to the next [!] that holds no []] between them,
    replaces each link [[display|target]] by [display], where [display]
    holds no newline and is the shortest text before a [|] that a
    non-empty target free of []] and a []] follow, turns each run of
    newlines into one newline, and strips whitespace at both ends; a falsy
    argument gives the empty string. *)
Theorem clean_text_is_the_stages :
  (forall s, _clean_text (PStr s) = Ok (clean_stages s))
  /\ (forall text, truthy text = false -> _clean_text text = Ok []).
Proof. split; [exact clean_text_str | exact clean_text_falsy]. Qed.

Lemma clean_text_is_the_stages_witness :
  _clean_text (PStr (py "{color:red}Hi{color} !a.png![docs|http://x] {{x}}"))
  = Ok (py "Hi docs")
  /\ _clean_text (PInt 0) = Ok [].
Proof.
  split.
  - rewrite (proj1 clean_text_is_the_stages). reflexivity.
  - apply (proj2 clean_text_is_the_stages). reflexivity.
Defined.

(** C8, as stated, fails: removing [{color}] from [{col{color}or}] leaves a
    new [{color}], which a second pass removes. *)
Lemma clean_text_not_idempotent :
  _clean_text (PStr (py "{col{color}or}")) = Ok (py "{color}")
  /\ _clean_text (PStr (py "{color}")) = Ok []
  /\ py "{color}" <> [].
Proof. repeat split; try reflexivity. discriminate. Qed.

(** ** The constructor *)

(** C10: [__init__] raises exactly when one of [JIRA_SITE], [JIRA_EMAIL]
    and [JIRA_API_TOKEN] is unset or empty, and what it raises is the
    [ValueError]; otherwise the fetcher holds the three values and the
    client is built from them as [url], [username] and [password] with
    [cloud=True]. *)
Theorem init_raises_iff_missing (environ : pystr -> option pystr) :
  ((exists e, __init__ environ = Raise e)
   <-> missing environ (py "JIRA_SITE")
       \/ missing environ (py "JIRA_EMAIL")
       \/ missing environ (py "JIRA_API_TOKEN"))
  /\ (forall e, __init__ environ = Raise e ->
      e = ValueError (py "Missing required Jira environment variables"))
  /\ (forall s m k,
      environ (py "JIRA_SITE") = Some s ->
      environ (py "JIRA_EMAIL") = Some m ->
      environ (py "JIRA_API_TOKEN") = Some k ->
      s <> [] -> m <> [] -> k <> [] ->
      __init__ environ =
      Ok {| server := s; email := m; api_token := k;
            jira := {| url := s; username := m; password := k;
                       cloud := true |} |}).
Proof.
  unfold __init__, getenv, missing.
  destruct (environ (py "JIRA_SITE")) as [[|a s]|];
    destruct (environ (py "JIRA_EMAIL")) as [[|b m]|];
    destruct (environ (py "JIRA_API_TOKEN")) as [[|c k]|];
    cbn [forallb nonempty andb negb];
    (split; [split; [intros [e He] | intros H; eauto] | split]);
    try discriminate;
    try (intros e He; injection He as <-; reflexivity);
    try (intros s' m' k' Hs Hm Hk Ns Nm Nk;
         injection Hs as <-; injection Hm as <-; injection Hk as <-;
         congruence);
    try (intros s' m' k' Hs Hm Hk; discriminate);
    try (left; left; reflexivity); try (left; right; reflexivity);
    try (right; left; left; reflexivity);
    try (right; left; right; reflexivity);
    try (right; right; left; reflexivity);
    try (right; right; right; reflexivity).
  destruct H as [[H|H]|[[H|H]|[H|H]]]; discriminate H.
Qed.

Lemma init_raises_iff_missing_witness :
  (exists e, __init__ demo_environ_no_token = Raise e)
  /\ __init__ demo_environ = Ok demo_self.
Proof.
  split.
  - apply (proj1 (init_raises_iff_missing demo_environ_no_token)).
    right; right; right; reflexivity.
  - apply (proj2 (proj2 (init_raises_iff_missing demo_environ)));
      solve [reflexivity | discriminate].
Defined.

(** ** The operations *)

Lemma rbind_ok {A B} (r : result A) (f : A -> result B) b :
  rbind r f = Ok b -> exists a, r = Ok a /\ f a = Ok b.
Proof. destruct r as [a|e]; [eauto|discriminate]. Qed.

Section FetcherFacts.

Variable client : list call -> call -> result pyval.
Variable strftime_ymd : pystr -> option pystr.
Variable str_exn : exn -> pystr.
Variable str_value : pyval -> pystr.
Variable self : JiraFetcher.

(** [get_issue] always returns, after exactly one request. *)
Lemma get_issue_run issue_key expand t :
  get_issue client strftime_ymd str_exn str_value self issue_key expand t =
  (Ok match client t (Issue issue_key expand) with
      | Raise e => error_doc issue_key (str_exn e)
      | Ok issue =>
          if negb (truthy issue) || negb (isinstance_dict issue) then
            error_doc issue_key (py "Issue not found or missing data")
          else
            match issue_doc strftime_ymd str_value self issue_key issue with
            | Ok doc => doc
            | Raise e => error_doc issue_key (str_exn e)
            end
      end,
   t ++ [Issue issue_key expand]).
Proof.
  unfold get_issue, try_except, get_issue_try, mbind, request, lift, mret.
  destruct (client t (Issue issue_key expand)) as [issue|e]; [|reflexivity].
  destruct (negb (truthy issue) || negb (isinstance_dict issue));
    [reflexivity|].
  destruct (issue_doc strftime_ymd str_value self issue_key issue);
    reflexivity.
Qed.

Lemma get_issue_try_raises issue_key expand t e t' :
  get_issue_try client strftime_ymd str_value self issue_key expand t
  = (Raise e, t') ->
  get_issue client strftime_ymd str_exn str_value self issue_key expand t
  = (Ok (error_doc issue_key (str_exn e)), t').
Proof. unfold get_issue, try_except; intros ->; reflexivity. Qed.

(** The trace of the loop of [search_issues] grows by requests for issues
    only. *)
Lemma collect_documents_trace expand issues :
  forall documents t,
  exists keys,
    snd (collect_documents client strftime_ymd str_exn str_value self expand
           issues documents t)
    = t ++ map (fun k => Issue k expand) keys.
Proof.
  induction issues as [|issue rest IH]; intros documents t.
  - exists []. cbn. rewrite app_nil_r. reflexivity.
  - cbn [collect_documents]. unfold mbind at 1, lift at 1.
    destruct (py_get issue (py "key") (PStr (py "UNKNOWN"))) as [key|e].
    + unfold mbind at 1. rewrite get_issue_run.
      set (doc := match client t (Issue key expand) with
                  | Ok _ => _ | Raise _ => _ end).
      unfold mbind at 1, lift at 1.
      destruct (py_in (py "error") doc) as [b|e].
      * destruct (IH (if b then documents else documents ++ [doc])
                    (t ++ [Issue key expand])) as [keys E].
        exists (key :: keys). rewrite E, <- app_assoc. reflexivity.
      * exists [key]. reflexivity.
    + exists []. cbn. rewrite app_nil_r. reflexivity.
Qed.

Lemma search_issues_first_request jql fields start limit expand t :
  exists keys,
    snd (search_issues client strftime_ymd str_exn str_value self jql fields
           start limit expand t)
    = t ++ Jql jql fields start limit expand
        :: map (fun k => Issue k expand) keys.
Proof.
  unfold search_issues, try_except, search_issues_try.
  unfold mbind at 1, request at 1.
  set (t1 := t ++ [Jql jql fields start limit expand]).
  assert (E0 : t1 = t ++ Jql jql fields start limit expand :: map (fun k => Issue k expand) [])
    by reflexivity.
  destruct (client t (Jql jql fields start limit expand)) as [results|e];
    [|exists []; exact E0].
  unfold mbind at 1, lift at 1.
  destruct (if negb (truthy results) then Ok true
            else b <- py_in (py "issues") results;; Ok (negb b))
    as [[|]|e]; try (exists []; exact E0).
  unfold mbind at 1, lift at 1.
  destruct (l <- py_get results (py "issues") (PList []);; py_iter l)
    as [issues|e]; [|exists []; exact E0].
  unfold mbind at 1.
  destruct (collect_documents_trace expand issues [] t1) as [keys E].
  destruct (collect_documents client strftime_ymd str_exn str_value self
              expand issues [] t1) as [[docs|e] t2]; cbn in E |- *;
    exists keys; rewrite E; unfold t1; rewrite <- app_assoc; reflexivity.
Qed.


Lemma search_issues_try_raises jql fields start limit expand t e t' :
  search_issues_try client strftime_ymd str_exn str_value self jql fields
    start limit expand t = (Raise e, t') ->
  search_issues client strftime_ymd str_exn str_value self jql fields start
    limit expand t = (Ok (PList []), t').
Proof. unfold search_issues, try_except; intros ->; reflexivity. Qed.

Lemma search_issues_client_raises jql fields start limit expand t e :
  client t (Jql jql fields start limit expand) = Raise e ->
  search_issues client strftime_ymd str_exn str_value self jql fields start
    limit expand t
  = (Ok (PList []), t ++ [Jql jql fields start limit expand]).
Proof.
  intros H. apply (search_issues_try_raises _ _ _ _ _ _ e).
  unfold search_issues_try, mbind, request. rewrite H. reflexivity.
Qed.


Lemma get_all_projects_try_raises t e t' :
  get_all_projects_try client self t = (Raise e, t') ->
  get_all_projects client self t = (Ok (PList []), t').
Proof. unfold get_all_projects, try_except; intros ->; reflexivity. Qed.

Lemma get_all_projects_client_raises t e :
  client t Projects = Raise e ->
  get_all_projects client self t = (Ok (PList []), t ++ [Projects]).
Proof.
  intros H. apply (get_all_projects_try_raises _ e).
  unfold get_all_projects_try, mbind, request. rewrite H. reflexivity.
Qed.

(** What the [try] block of [get_issue] can return after the checks on the
    client's answer. *)
Lemma issue_doc_inv issue_key issue doc :
  issue_doc strftime_ymd str_value self issue_key issue = Ok doc ->
  doc = error_doc issue_key (py "Issue missing fields")
  \/ exists fd title type status created priority description assignee
       reporter comments,
       py_get issue (py "fields") (PDict []) = Ok (PDict fd)
       /\ (isinstance_dict (field fd (py "comment") PNone) = false ->
           comments = [])
       /\ doc = PDict [(py "key", issue_key);
                       (py "title", title);
                       (py "type", type);
                       (py "status", status);
                       (py "created", PStr created);
                       (py "priority", priority);
                       (py "description", PStr description);
                       (py "assignee", assignee);
                       (py "reporter", reporter);
                       (py "comments", PList comments);
                       (py "link", PStr (issue_link str_value self issue_key))].
Proof.
  unfold issue_doc. intros H.
  apply rbind_ok in H as (fields & Hf & H).
  destruct (isinstance_dict fields) eqn:Ef; cbn [negb] in H.
  2:{ left. injection H as <-. reflexivity. }
  destruct fields as [| | | | |fd]; try discriminate Ef.
  right.
  repeat match type of H with
         | rbind _ _ = Ok _ =>
             let a := fresh "a" in
             let E := fresh "E" in
             apply rbind_ok in H as (a & E & H)
         end.
  cbn [py_get] in E1. injection E1 as <-.
  injection H as <-.
  do 10 eexists. split; [exact Hf|]. split; [|reflexivity].
  intros Hc. rewrite Hc in E2. injection E2 as <-. reflexivity.
Qed.

Lemma get_issue_returns_dict issue_key expand t :
  isinstance_dict
    (get_issue_value client strftime_ymd str_exn str_value self issue_key
       expand t) = true.
Proof.
  unfold get_issue_value. rewrite get_issue_run. cbn [fst].
  destruct (client t (Issue issue_key expand)) as [issue|e]; [|reflexivity].
  destruct (negb (truthy issue) || negb (isinstance_dict issue));
    [reflexivity|].
  destruct (issue_doc strftime_ymd str_value self issue_key issue)
    as [doc|e] eqn:E; [|reflexivity].
  apply issue_doc_inv in E
    as [->|(fd & ? & ? & ? & ? & ? & ? & ? & ? & ? & _ & _ & ->)];
    reflexivity.
Qed.

(** *** Well-typed issues *)

Lemma clean_text_ok v : is_text v = true -> _clean_text v = Ok (cleaned v).
Proof.
  intros H. unfold cleaned.
  destruct (_clean_text v) as [s|e] eqn:E; [reflexivity|].
  exfalso. unfold _clean_text, is_text in *.
  destruct (truthy v); [|discriminate E].
  destruct v; discriminate.
Qed.

Lemma date_run {B} d k (K : pystr -> result B) :
  is_some (date_of strftime_ymd d k) = true ->
  (created <- py_replace (field d k (PStr default_created)) (py "Z")
                (py "+00:00") ;;
   date <- fromisoformat_ymd strftime_ymd created ;; K date)
  = K (ymd strftime_ymd d k).
Proof.
  unfold ymd, date_of, fromisoformat_ymd.
  destruct (field d k (PStr default_created)); try discriminate.
  cbn [py_replace rbind].
  destruct (strftime_ymd _); [reflexivity|discriminate].
Qed.

Lemma nested_run d k k2 default :
  absent_or_dict d k = true ->
  py_get (field d k (PDict [])) k2 default = Ok (nested d k k2 default).
Proof.
  unfold absent_or_dict, nested.
  destruct (field d k (PDict [])); try discriminate; reflexivity.
Qed.

Lemma nested_absent d k k2 default :
  absent2 d k k2 = true -> nested d k k2 default = default.
Proof.
  unfold absent2, nested, field.
  destruct (dict_get d k) as [[| | | | |d2]|]; try discriminate;
    [|reflexivity].
  destruct (dict_get d2 k2); [discriminate|reflexivity].
Qed.

Lemma get_comment_ok c :
  comment_ok strftime_ymd c = true ->
  get_comment strftime_ymd c = Ok (comment_shape strftime_ymd c).
Proof.
  destruct c as [| | | | |cd]; try discriminate.
  cbn [comment_ok]. intros H.
  apply andb_true_iff in H as [H H3]. apply andb_true_iff in H as [H1 H2].
  unfold get_comment. cbn [py_get rbind].
  rewrite (clean_text_ok _ H1). cbn [rbind].
  rewrite (date_run _ _ _ H2), (nested_run _ _ _ _ H3).
  reflexivity.
Qed.

Lemma map_get_comment l :
  forallb (comment_ok strftime_ymd) l = true ->
  map_result (get_comment strftime_ymd) l
  = Ok (map (comment_shape strftime_ymd) l).
Proof.
  induction l as [|c l IH]; [reflexivity|].
  cbn [forallb map_result map]. intros H; apply andb_true_iff in H as [H1 H2].
  rewrite (get_comment_ok _ H1), (IH H2). reflexivity.
Qed.

Lemma comments_run fd l :
  comment_list fd = Some l ->
  forallb (comment_ok strftime_ymd) l = true ->
  (if isinstance_dict (field fd (py "comment") PNone) then
     fc <- py_getitem (PDict fd) (py "comment") ;;
     cs <- py_get fc (py "comments") (PList []) ;;
     items <- py_iter cs ;;
     map_result (get_comment strftime_ymd) items
   else Ok [])
  = Ok (map (comment_shape strftime_ymd) l).
Proof.
  unfold comment_list, py_getitem, field at 1 3.
  destruct (dict_get fd (py "comment")) as [[| | | | |cm]|];
    cbn [isinstance_dict]; intros H Hl;
    try (injection H as <-; reflexivity).
  cbn [py_get rbind].
  destruct (field cm (py "comments") (PList [])); try discriminate.
  injection H as <-. cbn [py_iter rbind]. exact (map_get_comment _ Hl).
Qed.

Lemma issue_doc_well_typed issue_key d fd :
  field d (py "fields") (PDict []) = PDict fd ->
  fields_ok strftime_ymd fd = true ->
  issue_doc strftime_ymd str_value self issue_key (PDict d)
  = Ok (issue_shape strftime_ymd str_value self issue_key fd).
Proof.
  intros Hf H. unfold fields_ok in H.
  apply andb_true_iff in H as [H Hrep]. apply andb_true_iff in H as [H Hasg].
  apply andb_true_iff in H as [H Hpri]. apply andb_true_iff in H as [H Hsta].
  apply andb_true_iff in H as [H Htyp]. apply andb_true_iff in H as [H Hdat].
  apply andb_true_iff in H as [Hdes Hcom].
  unfold issue_doc. cbn [py_get rbind]. rewrite Hf.
  cbn [isinstance_dict negb py_get rbind].
  rewrite (clean_text_ok _ Hdes). cbn [rbind].
  unfold issue_shape, comments_of.
  destruct (comment_list fd) as [l|] eqn:El; [|discriminate Hcom].
  rewrite (comments_run fd l El Hcom). cbn [rbind].
  rewrite (date_run _ _ _ Hdat).
  rewrite (nested_run _ _ _ _ Htyp). cbn [rbind].
  rewrite (nested_run _ _ _ _ Hsta). cbn [rbind].
  rewrite (nested_run _ _ _ _ Hpri). cbn [rbind].
  rewrite (nested_run _ _ _ _ Hasg). cbn [rbind].
  rewrite (nested_run _ _ _ _ Hrep). cbn [rbind].
  reflexivity.
Qed.

Lemma get_issue_well_typed issue_key expand t d fd :
  client t (Issue issue_key expand) = Ok (PDict d) ->
  d <> [] ->
  field d (py "fields") (PDict []) = PDict fd ->
  fields_ok strftime_ymd fd = true ->
  get_issue client strftime_ymd str_exn str_value self issue_key expand t
  = (Ok (issue_shape strftime_ymd str_value self issue_key fd),
     t ++ [Issue issue_key expand]).
Proof.
  intros Hc Hd Hf Hok. rewrite get_issue_run, Hc.
  destruct d as [|kv d']; [contradiction|].
  cbn [truthy isinstance_dict negb orb].
  rewrite (issue_doc_well_typed _ _ _ Hf Hok). reflexivity.
Qed.

(** *** Searching *)

Lemma get_issue_value_run issue_key expand t :
  get_issue client strftime_ymd str_exn str_value self issue_key expand t
  = (Ok (get_issue_value client strftime_ymd str_exn str_value self issue_key
           expand t),
     t ++ [Issue issue_key expand]).
Proof. unfold get_issue_value. rewrite get_issue_run. reflexivity. Qed.

Lemma py_in_error_dict doc :
  isinstance_dict doc = true -> py_in (py "error") doc = Ok (has_error doc).
Proof. destruct doc; try discriminate; reflexivity. Qed.

Lemma collect_documents_kept expand issues :
  forall documents t docs t',
  Forall kept documents ->
  collect_documents client strftime_ymd str_exn str_value self expand issues
    documents t = (Ok docs, t') ->
  Forall kept docs.
Proof.
  induction issues as [|issue rest IH]; intros documents t docs t' Hd.
  - cbn. intros E; injection E as <- _; exact Hd.
  - cbn [collect_documents]. unfold mbind at 1, lift at 1.
    destruct (py_get issue (py "key") (PStr (py "UNKNOWN"))) as [key|e];
      [|discriminate].
    unfold mbind at 1. rewrite get_issue_value_run.
    set (doc := get_issue_value client strftime_ymd str_exn str_value self
                  key expand t).
    pose proof (get_issue_returns_dict key expand t) as Hdict. fold doc in Hdict.
    unfold mbind at 1, lift at 1. rewrite (py_in_error_dict doc Hdict).
    apply IH. destruct (has_error doc) eqn:Eh; [exact Hd|].
    apply Forall_app; split; [exact Hd|].
    constructor; [split; assumption|constructor].
Qed.

Lemma collect_documents_dicts expand issues :
  Forall (fun issue => isinstance_dict issue = true) issues ->
  forall documents t,
  collect_documents client strftime_ymd str_exn str_value self expand issues
    documents t
  = (Ok (documents
         ++ filter (fun doc => negb (has_error doc))
              (fetch_each client strftime_ymd str_exn str_value self expand
                 (map key_of issues) t)),
     t ++ map (fun k => Issue k expand) (map key_of issues)).
Proof.
  induction 1 as [|issue rest Hi _ IH]; intros documents t.
  - cbn. rewrite !app_nil_r. reflexivity.
  - destruct issue as [| | | | |d]; try discriminate Hi.
    cbn [collect_documents map fetch_each key_of py_get].
    unfold mbind at 1, lift at 1. unfold mbind at 1.
    rewrite get_issue_value_run.
    set (key := field d (py "key") (PStr (py "UNKNOWN"))).
    set (doc := get_issue_value client strftime_ymd str_exn str_value self
                  key expand t).
    pose proof (get_issue_returns_dict key expand t) as Hdict. fold doc in Hdict.
    unfold mbind at 1, lift at 1. rewrite (py_in_error_dict doc Hdict).
    rewrite IH. cbn [filter].
    destruct (has_error doc); cbn [negb]; rewrite <- !app_assoc; reflexivity.
Qed.

Lemma search_issues_kept jql fields start limit expand t :
  exists docs,
    fst (search_issues client strftime_ymd str_exn str_value self jql fields
           start limit expand t) = Ok (PList docs)
    /\ Forall kept docs.
Proof.
  unfold search_issues, try_except, search_issues_try.
  unfold mbind at 1, request at 1.
  destruct (client t (Jql jql fields start limit expand)) as [results|e];
    [|exists []; split; [reflexivity|constructor]].
  unfold mbind at 1, lift at 1.
  destruct (if negb (truthy results) then Ok true
            else b <- py_in (py "issues") results;; Ok (negb b))
    as [[|]|e]; try (exists []; split; [reflexivity|constructor]).
  unfold mbind at 1, lift at 1.
  destruct (l <- py_get results (py "issues") (PList []);; py_iter l)
    as [issues|e]; [|exists []; split; [reflexivity|constructor]].
  unfold mbind at 1.
  destruct (collect_documents client strftime_ymd str_exn str_value self
              expand issues [] _) as [[docs|e] t2] eqn:E.
  - exists docs; split; [reflexivity|].
    exact (collect_documents_kept _ _ _ _ _ _ (Forall_nil _) E).
  - exists []; split; [reflexivity|constructor].
Qed.

Lemma search_issues_dicts jql fields start limit expand t r issues :
  client t (Jql jql fields start limit expand) = Ok (PDict r) ->
  dict_get r (py "issues") = Some (PList issues) ->
  Forall (fun issue => isinstance_dict issue = true) issues ->
  search_issues client strftime_ymd str_exn str_value self jql fields start
    limit expand t
  = (Ok (PList
           (filter (fun doc => negb (has_error doc))
              (fetch_each client strftime_ymd str_exn str_value self expand
                 (map key_of issues)
                 (t ++ [Jql jql fields start limit expand])))),
     (t ++ [Jql jql fields start limit expand])
     ++ map (fun k => Issue k expand) (map key_of issues)).
Proof.
  intros Hc Hi Hd.
  unfold search_issues, try_except, search_issues_try.
  unfold mbind at 1, request at 1. rewrite Hc.
  destruct r as [|kv r']; [discriminate Hi|].
  unfold mbind at 1, lift at 1. cbn [truthy negb py_in rbind].
  rewrite Hi. cbn [is_some negb].
  unfold mbind at 1, lift at 1. cbn [py_get rbind]. unfold field. rewrite Hi.
  cbn [py_iter]. unfold mbind at 1.
  rewrite (collect_documents_dicts expand issues Hd). reflexivity.
Qed.

Lemma search_issues_nothing jql fields start limit expand t results :
  client t (Jql jql fields start limit expand) = Ok results ->
  truthy results = false \/ py_in (py "issues") results = Ok false ->
  search_issues client strftime_ymd str_exn str_value self jql fields start
    limit expand t
  = (Ok (PList []), t ++ [Jql jql fields start limit expand]).
Proof.
  intros Hc H.
  unfold search_issues, try_except, search_issues_try.
  unfold mbind at 1, request at 1. rewrite Hc.
  unfold mbind at 1, lift at 1.
  destruct (truthy results); cbn [negb].
  - destruct H as [H|H]; [discriminate H|]. rewrite H. reflexivity.
  - reflexivity.
Qed.

(** *** Projects *)

Lemma map_project_entry ps :
  Forall (fun p => isinstance_dict p = true) ps ->
  map_result project_entry ps = Ok (map project_row ps).
Proof.
  induction 1 as [|p ps Hp _ IH]; [reflexivity|].
  destruct p; try discriminate Hp.
  cbn [map_result map]. rewrite IH. reflexivity.
Qed.

Lemma get_all_projects_dicts t ps :
  client t Projects = Ok (PList ps) ->
  Forall (fun p => isinstance_dict p = true) ps ->
  get_all_projects client self t
  = (Ok (PList (map project_row ps)), t ++ [Projects]).
Proof.
  intros Hc Hp.
  unfold get_all_projects, try_except, get_all_projects_try, mbind, request,
    lift, mret. rewrite Hc.
  destruct ps as [|p ps]; [reflexivity|].
  cbn [truthy negb py_iter rbind].
  rewrite (map_project_entry _ Hp). reflexivity.
Qed.

Lemma get_all_projects_falsy t projects :
  client t Projects = Ok projects ->
  truthy projects = false ->
  get_all_projects client self t = (Ok (PList []), t ++ [Projects]).
Proof.
  intros Hc Hf.
  unfold get_all_projects, try_except, get_all_projects_try, mbind, request,
    lift, mret. rewrite Hc, Hf. reflexivity.
Qed.

(** *** The claims on the operations *)

(** C3: the checks of [get_issue] on the client's answer.  A falsy answer
    or one that is not a dictionary gives the error document "Issue not
    found or missing data"; a [fields] entry that is not a dictionary
    gives "Issue missing fields"; and when [fields['comment']] is not a
    dictionary, a document that has comments has the empty list. *)
Theorem get_issue_defensive_checks issue_key expand t issue :
  client t (Issue issue_key expand) = Ok issue ->
  (truthy issue = false \/ isinstance_dict issue = false ->
   fst (get_issue client strftime_ymd str_exn str_value self issue_key
          expand t)
   = Ok (error_doc issue_key (py "Issue not found or missing data")))
  /\ (forall d f,
      issue = PDict d -> d <> [] ->
      dict_get d (py "fields") = Some f ->
      isinstance_dict f = false ->
      fst (get_issue client strftime_ymd str_exn str_value self issue_key
             expand t)
      = Ok (error_doc issue_key (py "Issue missing fields")))
  /\ (forall d fd doc v,
      issue = PDict d ->
      field d (py "fields") (PDict []) = PDict fd ->
      isinstance_dict (field fd (py "comment") PNone) = false ->
      fst (get_issue client strftime_ymd str_exn str_value self issue_key
             expand t) = Ok doc ->
      py_lookup doc (py "comments") = Some v ->
      v = PList []).
Proof.
  intros Hc. rewrite get_issue_run, Hc. cbn [fst]. split; [|split].
  - intros [H|H]; rewrite H; cbn [negb orb]; [reflexivity|].
    rewrite orb_true_r. reflexivity.
  - intros d f -> Hd Hf Hn.
    destruct d as [|kv d']; [contradiction|].
    cbn [truthy isinstance_dict negb orb].
    unfold issue_doc. cbn [py_get rbind]. unfold field. rewrite Hf, Hn.
    reflexivity.
  - intros d fd doc v -> Hf Hn E Hv.
    destruct d as [|kv d']; [cbn in E; injection E as <-; discriminate Hv|].
    cbn [truthy isinstance_dict negb orb] in E.
    destruct (issue_doc strftime_ymd str_value self issue_key
                (PDict (kv :: d'))) as [doc'|e] eqn:Ed.
    + injection E as ->.
      apply issue_doc_inv in Ed
        as [->|(fd' & ? & ? & ? & ? & ? & ? & ? & ? & comments
                & Hf' & Hcom & ->)].
      * discriminate Hv.
      * cbn [py_get] in Hf'. rewrite Hf in Hf'. injection Hf' as <-.
        rewrite (Hcom Hn) in Hv. cbn in Hv. injection Hv as <-. reflexivity.
    + injection E as <-. discriminate Hv.
Qed.

(** X15: for an answer that is a non-empty dictionary whose
    [fields] are a dictionary on which no step raises ([fields_ok]),
    [get_issue] returns a dictionary with exactly the eleven keys, in which
    [description] is the cleaned description, [created] the date the
    [datetime] library gives for the creation timestamp, [comments] one
    [{body, created, author}] entry per comment with the body cleaned, and
    [link] the server URL without trailing slashes, then [/browse/] and the
    issue key. *)
Theorem get_issue_document issue_key expand t d fd :
  client t (Issue issue_key expand) = Ok (PDict d) ->
  d <> [] ->
  field d (py "fields") (PDict []) = PDict fd ->
  fields_ok strftime_ymd fd = true ->
  exists doc,
    get_issue client strftime_ymd str_exn str_value self issue_key expand t
    = (Ok doc, t ++ [Issue issue_key expand])
    /\ dict_keys doc
       = [py "key"; py "title"; py "type"; py "status"; py "created";
          py "priority"; py "description"; py "assignee"; py "reporter";
          py "comments"; py "link"]
    /\ py_lookup doc (py "key") = Some issue_key
    /\ (exists description,
          _clean_text (field fd (py "description") (PStr [])) = Ok description
          /\ py_lookup doc (py "description") = Some (PStr description))
    /\ (exists timestamp date,
          field fd (py "created") (PStr default_created) = PStr timestamp
          /\ strftime_ymd (str_replace (py "Z") (py "+00:00") timestamp)
             = Some date
          /\ py_lookup doc (py "created") = Some (PStr date))
    /\ (exists entries,
          py_lookup doc (py "comments") = Some (PList entries)
          /\ Forall2 (comment_entry strftime_ymd) (comments_of fd) entries)
    /\ py_lookup doc (py "link")
       = Some (PStr (rstrip (N.eqb (ch "/")) (server self) ++ py "/browse/"
                     ++ format_value str_value issue_key)).
Proof.
  intros Hc Hd Hf Hok.
  exists (issue_shape strftime_ymd str_value self issue_key fd).
  split; [exact (get_issue_well_typed _ _ _ _ _ Hc Hd Hf Hok)|].
  unfold fields_ok in Hok.
  apply andb_true_iff in Hok as [Hok _]. apply andb_true_iff in Hok as [Hok _].
  apply andb_true_iff in Hok as [Hok _]. apply andb_true_iff in Hok as [Hok _].
  apply andb_true_iff in Hok as [Hok _].
  apply andb_true_iff in Hok as [Hok Hdat].
  apply andb_true_iff in Hok as [Hdes Hcom].
  repeat split; try reflexivity.
  - exists (cleaned (field fd (py "description") (PStr []))).
    split; [exact (clean_text_ok _ Hdes)|reflexivity].
  - unfold issue_shape, ymd. unfold date_of in Hdat |- *.
    destruct (field fd (py "created") (PStr default_created))
      as [| | |ts| |]; try discriminate Hdat.
    destruct (strftime_ymd (str_replace (py "Z") (py "+00:00") ts))
      as [date|] eqn:Ed; [|discriminate Hdat].
    exists ts, date. split; [reflexivity|]. split; [exact Ed|].
    reflexivity.
  - exists (map (comment_shape strftime_ymd) (comments_of fd)).
    split; [reflexivity|].
    unfold comments_of. destruct (comment_list fd) as [l|]; [|constructor].
    induction l as [|c l IH]; [constructor|].
    cbn [forallb] in Hcom. apply andb_true_iff in Hcom as [Hc1 Hc2].
    constructor; [|exact (IH Hc2)].
    destruct c as [| | | | |cd]; try discriminate Hc1.
    cbn [comment_ok] in Hc1.
    apply andb_true_iff in Hc1 as [Hc1 _].
    apply andb_true_iff in Hc1 as [Hb Hdt].
    destruct (date_of strftime_ymd cd (py "created")) as [date|] eqn:Edt;
      [|discriminate Hdt].
    exists cd, (cleaned (field cd (py "body") (PStr []))), date,
      (nested cd (py "author") (py "displayName") (PStr (py "Unknown"))).
    split; [reflexivity|]. split; [exact (clean_text_ok _ Hb)|].
    split; [exact Edt|].
    unfold comment_shape, ymd. rewrite Edt. reflexivity.
Qed.

Lemma comment_shape_defaults l :
  strftime_ymd default_created = Some (py "1970-01-01") ->
  Forall2 comment_defaults l (map (comment_shape strftime_ymd) l).
Proof.
  intros Hepoch. induction l as [|c l IH]; constructor; [|exact IH].
  intros cd ->. split.
  - intros H.
    transitivity (Some (PStr (ymd strftime_ymd cd (py "created"))));
      [reflexivity|].
    unfold ymd, date_of, field. rewrite H.
    change (str_replace (py "Z") (py "+00:00") default_created)
      with default_created.
    rewrite Hepoch. reflexivity.
  - intros H.
    transitivity (Some (nested cd (py "author") (py "displayName")
                          (PStr (py "Unknown")))); [reflexivity|].
    rewrite (nested_absent _ _ _ _ H). reflexivity.
Qed.

(** C5, amended: when [get_issue] runs through (the answer is a non-empty
    dictionary, its [fields] are a dictionary on which no step raises) and
    the [datetime] library reads the default timestamp as the epoch, an
    absent entry gets its default: [title] "No Summary", [type] and
    [status] "Unknown", [priority] "None", [assignee] "Unassigned",
    [reporter] "Unknown Reporter", [created] "1970-01-01" for the issue and
    for a comment, and "Unknown" for a comment's author. *)
Theorem get_issue_defaults issue_key expand t d fd :
  client t (Issue issue_key expand) = Ok (PDict d) ->
  d <> [] ->
  field d (py "fields") (PDict []) = PDict fd ->
  fields_ok strftime_ymd fd = true ->
  strftime_ymd default_created = Some (py "1970-01-01") ->
  exists doc,
    fst (get_issue client strftime_ymd str_exn str_value self issue_key
           expand t) = Ok doc
    /\ (dict_get fd (py "summary") = None ->
        py_lookup doc (py "title") = Some (PStr (py "No Summary")))
    /\ (absent2 fd (py "issuetype") (py "name") = true ->
        py_lookup doc (py "type") = Some (PStr (py "Unknown")))
    /\ (absent2 fd (py "status") (py "name") = true ->
        py_lookup doc (py "status") = Some (PStr (py "Unknown")))
    /\ (absent2 fd (py "priority") (py "name") = true ->
        py_lookup doc (py "priority") = Some (PStr (py "None")))
    /\ (absent2 fd (py "assignee") (py "displayName") = true ->
        py_lookup doc (py "assignee") = Some (PStr (py "Unassigned")))
    /\ (absent2 fd (py "reporter") (py "displayName") = true ->
        py_lookup doc (py "reporter") = Some (PStr (py "Unknown Reporter")))
    /\ (dict_get fd (py "created") = None ->
        py_lookup doc (py "created") = Some (PStr (py "1970-01-01")))
    /\ exists entries,
         py_lookup doc (py "comments") = Some (PList entries)
         /\ Forall2 comment_defaults (comments_of fd) entries.
Proof.
  intros Hc Hd Hf Hok Hepoch.
  exists (issue_shape strftime_ymd str_value self issue_key fd).
  rewrite (get_issue_well_typed _ _ _ _ _ Hc Hd Hf Hok). cbn [fst].
  split; [reflexivity|].
  split.
  { intros H.
    transitivity (Some (field fd (py "summary") (PStr (py "No Summary"))));
      [reflexivity|].
    unfold field. rewrite H. reflexivity. }
  split.
  { intros H.
    transitivity (Some (nested fd (py "issuetype") (py "name")
                          (PStr (py "Unknown")))); [reflexivity|].
    rewrite (nested_absent _ _ _ _ H). reflexivity. }
  split.
  { intros H.
    transitivity (Some (nested fd (py "status") (py "name")
                          (PStr (py "Unknown")))); [reflexivity|].
    rewrite (nested_absent _ _ _ _ H). reflexivity. }
  split.
  { intros H.
    transitivity (Some (nested fd (py "priority") (py "name")
                          (PStr (py "None")))); [reflexivity|].
    rewrite (nested_absent _ _ _ _ H). reflexivity. }
  split.
  { intros H.
    transitivity (Some (nested fd (py "assignee") (py "displayName")
                          (PStr (py "Unassigned")))); [reflexivity|].
    rewrite (nested_absent _ _ _ _ H). reflexivity. }
  split.
  { intros H.
    transitivity (Some (nested fd (py "reporter") (py "displayName")
                          (PStr (py "Unknown Reporter")))); [reflexivity|].
    rewrite (nested_absent _ _ _ _ H). reflexivity. }
  split.
  { intros H.
    transitivity (Some (PStr (ymd strftime_ymd fd (py "created"))));
      [reflexivity|].
    unfold ymd, date_of, field. rewrite H.
    change (str_replace (py "Z") (py "+00:00") default_created)
      with default_created.
    rewrite Hepoch. reflexivity. }
  exists (map (comment_shape strftime_ymd) (comments_of fd)).
  split; [reflexivity|]. exact (comment_shape_defaults _ Hepoch).
Qed.

(** C6: [search_issues] hands [start] and [limit] to the client's [jql]
    call as they are, in its first and only search request (every later
    request asks for an issue); [get_project_issues] is [search_issues] on
    the query [project = {project_key} ORDER BY created DESC] with the same
    [start] and [limit]. *)
Theorem start_limit_pass_through jql fields start limit expand project_key t :
  (exists keys,
     snd (search_issues client strftime_ymd str_exn str_value self jql fields
            start limit expand t)
     = t ++ Jql jql fields start limit expand
         :: map (fun k => Issue k expand) keys)
  /\ get_project_issues client strftime_ymd str_exn str_value self
       project_key start limit t
     = search_issues client strftime_ymd str_exn str_value self
         (py "project = " ++ format_value str_value project_key
          ++ py " ORDER BY created DESC")
         (PStr (py "*all")) start limit PNone t
  /\ (exists keys,
        snd (get_project_issues client strftime_ymd str_exn str_value self
               project_key start limit t)
        = t ++ Jql (py "project = " ++ format_value str_value project_key
                    ++ py " ORDER BY created DESC")
                 (PStr (py "*all")) start limit PNone
            :: map (fun k => Issue k PNone) keys)
  /\ (forall s, format_value str_value (PStr s) = s).
Proof.
  split; [apply search_issues_first_request|].
  split; [reflexivity|].
  split; [apply search_issues_first_request|reflexivity].
Qed.

(** C7: [get_all_projects] returns one [{key, name}] row per project of
    the client's list, in the same order, each holding the project's [key]
    and [name] entries ([None] for one that is absent); a falsy answer
    gives the empty list. *)
Theorem get_all_projects_rows t projects :
  client t Projects = Ok projects ->
  (forall ps,
     projects = PList ps ->
     Forall (fun p => isinstance_dict p = true) ps ->
     get_all_projects client self t
     = (Ok (PList (map project_row ps)), t ++ [Projects]))
  /\ (truthy projects = false ->
      get_all_projects client self t = (Ok (PList []), t ++ [Projects])).
Proof.
  intros Hc. split.
  - intros ps -> Hp. exact (get_all_projects_dicts _ _ Hc Hp).
  - exact (get_all_projects_falsy _ _ Hc).
Qed.

(** C9: what [search_issues] returns.  Every element is a dictionary
    without the key [error]; when the answer holds a list of issue
    dictionaries under [issues], the result is the [get_issue] documents of
    their keys ([UNKNOWN] for an issue without one), fetched in order, less
    those with the key [error]; a falsy answer or one without [issues]
    gives the empty list. *)
Theorem search_issues_documents jql fields start limit expand t :
  (exists docs,
     fst (search_issues client strftime_ymd str_exn str_value self jql fields
            start limit expand t) = Ok (PList docs)
     /\ Forall kept docs)
  /\ (forall r issues,
      client t (Jql jql fields start limit expand) = Ok (PDict r) ->
      dict_get r (py "issues") = Some (PList issues) ->
      Forall (fun issue => isinstance_dict issue = true) issues ->
      search_issues client strftime_ymd str_exn str_value self jql fields
        start limit expand t
      = (Ok (PList
               (filter (fun doc => negb (has_error doc))
                  (fetch_each client strftime_ymd str_exn str_value self
                     expand (map key_of issues)
                     (t ++ [Jql jql fields start limit expand])))),
         (t ++ [Jql jql fields start limit expand])
         ++ map (fun k => Issue k expand) (map key_of issues)))
  /\ (forall results,
      client t (Jql jql fields start limit expand) = Ok results ->
      truthy results = false \/ py_in (py "issues") results = Ok false ->
      search_issues client strftime_ymd str_exn str_value self jql fields
        start limit expand t
      = (Ok (PList []), t ++ [Jql jql fields start limit expand]))
  /\ (forall d,
      dict_get d (py "key") = None -> key_of (PDict d) = PStr (py "UNKNOWN")).
Proof.
  split; [apply search_issues_kept|].
  split; [intros r issues; apply search_issues_dicts|].
  split; [intros results; apply search_issues_nothing|].
  intros d H. unfold key_of, field. rewrite H. reflexivity.
Qed.

End FetcherFacts.

(** ** The operations on examples *)

Lemma get_issue_fst client strftime_ymd str_exn str_value self issue_key
  expand t :
  fst (get_issue client strftime_ymd str_exn str_value self issue_key expand
         t)
  = Ok (get_issue_value client strftime_ymd str_exn str_value self issue_key
          expand t).
Proof. rewrite get_issue_value_run. reflexivity. Qed.

Lemma get_issue_defensive_checks_witness :
  fst (get_issue (client_returning (PList [])) demo_strftime_ymd demo_str_exn
         demo_str_value demo_self (PStr (py "PRJ-1")) PNone [])
  = Ok (error_doc (PStr (py "PRJ-1")) (py "Issue not found or missing data"))
  /\ fst (get_issue
            (client_returning (PDict [(py "fields", PStr (py "none"))]))
            demo_strftime_ymd demo_str_exn demo_str_value demo_self
            (PStr (py "PRJ-1")) PNone [])
     = Ok (error_doc (PStr (py "PRJ-1")) (py "Issue missing fields"))
  /\ (forall v,
      py_lookup
        (get_issue_value
           (client_returning
              (PDict [(py "fields", PDict [(py "comment", PStr (py "none"))])]))
           demo_strftime_ymd demo_str_exn demo_str_value demo_self
           (PStr (py "PRJ-1")) PNone [])
        (py "comments") = Some v ->
      v = PList []).
Proof.
  split; [|split].
  - apply (proj1 (get_issue_defensive_checks (client_returning (PList []))
                    demo_strftime_ymd demo_str_exn demo_str_value demo_self
                    (PStr (py "PRJ-1")) PNone [] (PList []) eq_refl)).
    left; reflexivity.
  - apply (proj1 (proj2 (get_issue_defensive_checks
                           (client_returning
                              (PDict [(py "fields", PStr (py "none"))]))
                           demo_strftime_ymd demo_str_exn demo_str_value
                           demo_self (PStr (py "PRJ-1")) PNone [] _ eq_refl))
             [(py "fields", PStr (py "none"))] (PStr (py "none")));
      solve [reflexivity | discriminate].
  - intros v Hv.
    exact (proj2 (proj2 (get_issue_defensive_checks
                           (client_returning
                              (PDict [(py "fields",
                                       PDict [(py "comment",
                                               PStr (py "none"))])]))
                           demo_strftime_ymd demo_str_exn demo_str_value
                           demo_self (PStr (py "PRJ-1")) PNone [] _ eq_refl))
             [(py "fields", PDict [(py "comment", PStr (py "none"))])]
             [(py "comment", PStr (py "none"))]
             _ v eq_refl eq_refl eq_refl
             (get_issue_fst _ _ _ _ _ _ _ _) Hv).
Defined.

(** C4: the code misses the claim on an issue nobody is assigned to.  The
    issue and its [fields] are dictionaries and [assignee] is [null], as
    Jira sends it; line 92 means to give [Unassigned], but its default only
    stands in for an absent key, so [.get] is called on [None], raises, and
    [get_issue] returns the error document with the two keys [key] and
    [error] in place of the eleven. *)
Lemma get_issue_unassigned_is_error :
  isinstance_dict unassigned_issue = true
  /\ py_get unassigned_issue (py "fields") (PDict [])
     = Ok (PDict unassigned_fields)
  /\ get_issue (client_returning unassigned_issue) demo_strftime_ymd
       demo_str_exn demo_str_value demo_self (PStr (py "PRJ-7")) PNone []
     = (Ok (error_doc (PStr (py "PRJ-7"))
              (py "'NoneType' object has no attribute 'get'")),
        [Issue (PStr (py "PRJ-7")) PNone])
  /\ dict_keys (error_doc (PStr (py "PRJ-7"))
                  (py "'NoneType' object has no attribute 'get'"))
     = [py "key"; py "error"].
Proof. repeat split; reflexivity. Qed.

Lemma get_issue_document_witness :
  fields_ok demo_strftime_ymd demo_fields = true
  /\ get_issue demo_client demo_strftime_ymd demo_str_exn demo_str_value
       demo_self (PStr (py "PRJ-1")) PNone []
     = (Ok demo_document, [Issue (PStr (py "PRJ-1")) PNone])
  /\ exists doc,
       get_issue demo_client demo_strftime_ymd demo_str_exn demo_str_value
         demo_self (PStr (py "PRJ-1")) PNone []
       = (Ok doc, [Issue (PStr (py "PRJ-1")) PNone])
       /\ dict_keys doc
          = [py "key"; py "title"; py "type"; py "status"; py "created";
             py "priority"; py "description"; py "assignee"; py "reporter";
             py "comments"; py "link"].
Proof.
  split; [reflexivity|]. split; [reflexivity|].
  destruct (get_issue_document demo_client demo_strftime_ymd demo_str_exn
              demo_str_value demo_self (PStr (py "PRJ-1")) PNone []
              [(py "key", PStr (py "PRJ-1")); (py "fields", PDict demo_fields)]
              demo_fields eq_refl ltac:(discriminate) eq_refl eq_refl)
    as (doc & E & K & _).
  exists doc. split; [exact E|exact K].
Defined.

(** C5, as stated, fails: this issue has no [summary], but its [status] is
    a string, so [get_issue] returns the error document, in which no
    default title stands. *)
Lemma get_issue_default_title_lost :
  isinstance_dict flat_status_issue = true
  /\ py_get flat_status_issue (py "fields") (PDict [])
     = Ok (PDict flat_status_fields)
  /\ dict_get flat_status_fields (py "summary") = None
  /\ get_issue (client_returning flat_status_issue) demo_strftime_ymd
       demo_str_exn demo_str_value demo_self (PStr (py "PRJ-8")) PNone []
     = (Ok (error_doc (PStr (py "PRJ-8"))
              (py "'str' object has no attribute 'get'")),
        [Issue (PStr (py "PRJ-8")) PNone])
  /\ py_lookup (error_doc (PStr (py "PRJ-8"))
                  (py "'str' object has no attribute 'get'")) (py "title")
     = None.
Proof. repeat split; reflexivity. Qed.

Lemma get_issue_defaults_witness :
  fields_ok demo_strftime_ymd bare_fields = true
  /\ demo_strftime_ymd default_created = Some (py "1970-01-01")
  /\ exists doc,
       fst (get_issue (client_returning bare_issue) demo_strftime_ymd
              demo_str_exn demo_str_value demo_self (PStr (py "PRJ-9")) PNone
              []) = Ok doc
       /\ py_lookup doc (py "title") = Some (PStr (py "No Summary"))
       /\ py_lookup doc (py "type") = Some (PStr (py "Unknown"))
       /\ py_lookup doc (py "status") = Some (PStr (py "Unknown"))
       /\ py_lookup doc (py "priority") = Some (PStr (py "None"))
       /\ py_lookup doc (py "assignee") = Some (PStr (py "Unassigned"))
       /\ py_lookup doc (py "reporter") = Some (PStr (py "Unknown Reporter"))
       /\ py_lookup doc (py "created") = Some (PStr (py "1970-01-01")).
Proof.
  split; [reflexivity|]. split; [reflexivity|].
  destruct (get_issue_defaults (client_returning bare_issue)
              demo_strftime_ymd demo_str_exn demo_str_value demo_self
              (PStr (py "PRJ-9")) PNone []
              [(py "fields", PDict bare_fields)] bare_fields
              eq_refl ltac:(discriminate) eq_refl eq_refl eq_refl)
    as (doc & E & H1 & H2 & H3 & H4 & H5 & H6 & H7 & _).
  exists doc. split; [exact E|].
  split; [exact (H1 eq_refl)|]. split; [exact (H2 eq_refl)|].
  split; [exact (H3 eq_refl)|]. split; [exact (H4 eq_refl)|].
  split; [exact (H5 eq_refl)|]. split; [exact (H6 eq_refl)|].
  exact (H7 eq_refl).
Defined.

Lemma get_all_projects_rows_witness :
  get_all_projects demo_client demo_self []
  = (Ok (PList [PDict [(py "key", PStr (py "PRJ"));
                       (py "name", PStr (py "Project"))];
                PDict [(py "key", PStr (py "OPS")); (py "name", PNone)]]),
     [Projects])
  /\ get_all_projects (client_returning PNone) demo_self []
     = (Ok (PList []), [Projects]).
Proof.
  split.
  - apply (proj1 (get_all_projects_rows demo_client demo_self []
                    (PList demo_projects) eq_refl) demo_projects eq_refl).
    repeat constructor.
  - apply (proj2 (get_all_projects_rows (client_returning PNone) demo_self []
                    PNone eq_refl)).
    reflexivity.
Defined.

Lemma search_issues_documents_witness :
  search_issues demo_client demo_strftime_ymd demo_str_exn demo_str_value
    demo_self (py "project = PRJ") (PStr (py "*all")) (PInt 0) (PInt 50)
    PNone []
  = (Ok (PList [demo_document]),
     [Jql (py "project = PRJ") (PStr (py "*all")) (PInt 0) (PInt 50) PNone;
      Issue (PStr (py "PRJ-1")) PNone;
      Issue (PStr (py "PRJ-2")) PNone;
      Issue (PStr (py "UNKNOWN")) PNone])
  /\ search_issues (client_returning (PDict [(py "total", PInt 0)]))
       demo_strftime_ymd demo_str_exn demo_str_value demo_self
       (py "project = PRJ") (PStr (py "*all")) (PInt 0) (PInt 50) PNone []
     = (Ok (PList []),
        [Jql (py "project = PRJ") (PStr (py "*all")) (PInt 0) (PInt 50) PNone]).
Proof.
  split.
  - apply (eq_trans
             (proj1 (proj2 (search_issues_documents demo_client
                              demo_strftime_ymd demo_str_exn demo_str_value
                              demo_self (py "project = PRJ")
                              (PStr (py "*all")) (PInt 0) (PInt 50) PNone []))
                demo_search demo_found eq_refl eq_refl
                ltac:(repeat constructor))).
    reflexivity.
  - apply (proj1 (proj2 (proj2 (search_issues_documents
                                  (client_returning
                                     (PDict [(py "total", PInt 0)]))
                                  demo_strftime_ymd demo_str_exn
                                  demo_str_value demo_self
                                  (py "project = PRJ") (PStr (py "*all"))
                                  (PInt 0) (PInt 50) PNone [])))
             (PDict [(py "total", PInt 0)]) eq_refl).
    right; reflexivity.
Defined.

(** ** More on [_clean_text] *)

Lemma rstrip_last f (s r : pystr) c : rstrip f s = r ++ [c] -> f c = false.
Proof.
  unfold rstrip. intros H. apply (f_equal (@rev N)) in H.
  rewrite rev_involutive, rev_unit in H.
  exact (drop_while_head _ _ _ _ H).
Qed.

Lemma strip_first s c r : strip s = c :: r -> isspace c = false.
Proof.
  unfold strip, lstrip.
  destruct (drop_while isspace s) as [|a y] eqn:E; [discriminate|].
  pose proof (drop_while_head _ _ _ _ E) as Ha.
  rewrite (rstrip_cons _ _ _ Ha). intros H; injection H as <- _. exact Ha.
Qed.

Lemma strip_length s : List.length (strip s) <= List.length s.
Proof.
  destruct (strip_infix s) as (l & r & E).
  rewrite E at 2. rewrite !length_app. lia.
Qed.

Lemma adj_free_no_run (t l1 l2 : pystr) :
  adj_free t = true -> t <> l1 ++ NL :: NL :: l2.
Proof.
  intros H ->. apply adj_free_app_r in H. discriminate H.
Qed.

(** X1: the text [_clean_text] returns for a string never starts and never
    ends with a whitespace character. *)
Theorem clean_text_result_is_trimmed (s : pystr) :
  exists t,
    _clean_text (PStr s) = Ok t
    /\ (forall c r, t = c :: r -> isspace c = false)
    /\ (forall c r, t = r ++ [c] -> isspace c = false).
Proof.
  exists (clean_stages s). split; [apply clean_text_str|]. split.
  - intros c r. unfold clean_stages. apply strip_first.
  - intros c r. unfold clean_stages, strip. apply rstrip_last.
Qed.

(** X2: the text [_clean_text] returns for a string never holds two
    newlines in a row. *)
Theorem clean_text_result_has_no_newline_run (s : pystr) :
  exists t,
    _clean_text (PStr s) = Ok t
    /\ forall l1 l2, t <> l1 ++ NL :: NL :: l2.
Proof.
  exists (clean_stages s). split; [apply clean_text_str|].
  intros l1 l2. apply adj_free_no_run.
  unfold clean_stages. apply adj_free_strip, adj_free_collapse.
Qed.

(** A matcher whose replacement is no longer than what it replaces. *)
Lemma scan_length m :
  (forall s out rest,
     m s = Some (out, rest) ->
     exists c pre,
       s = c :: pre ++ rest /\ List.length out <= S (List.length pre)) ->
  forall s, List.length (scan m 0 s) <= List.length s.
Proof.
  intros Hm s.
  assert (Hc : consumes m).
  { intros u out rest E. destruct (Hm _ _ _ E) as (c & pre & Hu & _).
    exists c, pre. exact Hu. }
  assert (G : forall n u, List.length u <= n ->
                List.length (scan m 0 u) <= List.length u);
    [|exact (G _ s (Nat.le_refl _))].
  clear s. induction n as [|n IH]; intros s H.
  - destruct s; [cbn; lia|cbn in H; lia].
  - destruct s as [|c s']; [cbn; lia|]. cbn [List.length] in H.
    destruct (m (c :: s')) as [[out rest]|] eqn:E.
    + rewrite (scan_match _ _ _ _ _ Hc E).
      destruct (Hm _ _ _ E) as (c' & pre & Hu & Ho).
      injection Hu as _ ->. rewrite length_app in H.
      specialize (IH rest ltac:(lia)).
      cbn [List.length]. rewrite !length_app. lia.
    + cbn [scan]. rewrite E. cbn [List.length].
      specialize (IH s' ltac:(lia)). lia.
Qed.

Lemma removal_length m :
  consumes m ->
  (forall s out rest, m s = Some (out, rest) -> out = []) ->
  forall s, List.length (scan m 0 s) <= List.length s.
Proof.
  intros Hc Ho. apply scan_length. intros s out rest E.
  destruct (Hc _ _ _ E) as (c & pre & Hs). exists c, pre.
  rewrite (Ho _ _ _ E). split; [exact Hs|cbn; lia].
Qed.

Lemma link_split_display s display rest :
  link_split s = Some (display, rest) ->
  exists tail, s = display ++ tail ++ rest.
Proof.
  revert display; induction s as [|c s IH]; intros display;
    cbn [link_split].
  - cbn [link_target]. discriminate.
  - destruct (link_target (c :: s)) as [r|] eqn:Et.
    + intros H; injection H as <- <-.
      destruct (link_target_suffix _ _ Et) as (c' & pre & E).
      exists (c' :: pre). exact E.
    + destruct (N.eqb c NL); [discriminate|].
      destruct (link_split s) as [[d r]|]; [|discriminate].
      intros H; injection H as <- <-.
      destruct (IH d eq_refl) as [tail E]. exists tail.
      cbn [app]. rewrite <- E. reflexivity.
Qed.

Lemma clean_stages_length s :
  List.length (clean_stages s) <= List.length s.
Proof.
  unfold clean_stages.
  eapply Nat.le_trans; [apply strip_length|].
  eapply Nat.le_trans.
  { apply scan_length. intros u out rest E.
    destruct (newline_run_consumes _ _ _ E) as (c & pre & Hu).
    exists c, pre. split; [exact Hu|].
    unfold newline_run_at in E. destruct u as [|a u']; [discriminate|].
    destruct (N.eqb a NL); [|discriminate].
    injection E as <- _. cbn; lia. }
  eapply Nat.le_trans.
  { apply scan_length. intros u out rest E.
    unfold link_at in E. destruct u as [|a u']; [discriminate|].
    destruct (N.eqb a (ch "[")); [|discriminate].
    destruct (link_split_display _ _ _ E) as [tail Hu].
    exists a, (out ++ tail). split.
    - rewrite Hu, <- app_assoc. reflexivity.
    - rewrite length_app. lia. }
  eapply Nat.le_trans.
  { apply (removal_length _ image_consumes). intros u out rest E.
    unfold image_at in E. destruct u as [|a u']; [discriminate|].
    destruct (N.eqb a (ch "!")); [|discriminate].
    destruct (image_end u'); [|discriminate].
    injection E as <- _. reflexivity. }
  eapply Nat.le_trans.
  { apply (removal_length _ code_block_consumes). intros u out rest E.
    unfold code_block_at in E.
    destruct (strip_prefix (py "{{") u); [|discriminate].
    destruct (after_first (py "}}") l); [|discriminate].
    injection E as <- _. reflexivity. }
  eapply Nat.le_trans.
  { apply (removal_length _ color_close_consumes). intros u out rest E.
    unfold color_close_at in E.
    destruct (strip_prefix (py "{color}") u); [|discriminate].
    injection E as <- _. reflexivity. }
  apply (removal_length _ color_open_consumes). intros u out rest E.
  unfold color_open_at in E.
  destruct (strip_prefix (py "{color:") u); [|discriminate].
  destruct (take_while (is_not (ch "}")) l); [discriminate|].
  destruct (drop_while (is_not (ch "}")) l); [discriminate|].
  injection E as <- _. reflexivity.
Qed.

Lemma scan_shrinking m :
  (forall s out rest,
     m s = Some (out, rest) ->
     exists c pre,
       s = c :: pre ++ rest /\ List.length out <= List.length pre) ->
  shrinking (scan m 0).
Proof.
  intros Hm.
  assert (Hc : consumes m).
  { intros u out rest E. destruct (Hm _ _ _ E) as (c & pre & Hu & _).
    exists c, pre. exact Hu. }
  assert (G : forall n u, List.length u <= n ->
                scan m 0 u = u \/ List.length (scan m 0 u) < List.length u);
    [|intros s; exact (G _ s (Nat.le_refl _))].
  induction n as [|n IH]; intros s H.
  - destruct s; [left; reflexivity|cbn in H; lia].
  - destruct s as [|c s']; [left; reflexivity|]. cbn [List.length] in H.
    destruct (m (c :: s')) as [[out rest]|] eqn:E.
    + right. rewrite (scan_match _ _ _ _ _ Hc E).
      destruct (Hm _ _ _ E) as (c' & pre & Hu & Ho).
      injection Hu as _ ->. rewrite length_app in H.
      destruct (IH rest ltac:(lia)) as [Er|Hr].
      * rewrite Er. cbn [List.length]. rewrite !length_app. lia.
      * cbn [List.length]. rewrite !length_app. lia.
    + cbn [scan]. rewrite E.
      destruct (IH s' ltac:(lia)) as [Er|Hr].
      * left. rewrite Er. reflexivity.
      * right. cbn [List.length]. lia.
Qed.

Lemma removal_shrinking m :
  consumes m ->
  (forall s out rest, m s = Some (out, rest) -> out = []) ->
  shrinking (scan m 0).
Proof.
  intros Hc Ho. apply scan_shrinking. intros s out rest E.
  destruct (Hc _ _ _ E) as (c & pre & Hs). exists c, pre.
  rewrite (Ho _ _ _ E). split; [exact Hs|cbn; lia].
Qed.

Lemma shrinking_compose f g :
  shrinking f -> shrinking g -> shrinking (fun s => g (f s)).
Proof.
  intros Hf Hg s. destruct (Hf s) as [Ef|Lf].
  - rewrite Ef. apply Hg.
  - right. destruct (Hg (f s)) as [Eg|Lg]; [rewrite Eg; exact Lf|lia].
Qed.

Lemma color_open_removes s out rest :
  color_open_at s = Some (out, rest) -> out = [].
Proof.
  unfold color_open_at.
  destruct (strip_prefix (py "{color:") s) as [u|]; [|discriminate].
  destruct (take_while (is_not (ch "}")) u); [discriminate|].
  destruct (drop_while (is_not (ch "}")) u); [discriminate|].
  intros E; injection E as <- _. reflexivity.
Qed.

Lemma color_close_removes s out rest :
  color_close_at s = Some (out, rest) -> out = [].
Proof.
  unfold color_close_at.
  destruct (strip_prefix (py "{color}") s); [|discriminate].
  intros E; injection E as <- _. reflexivity.
Qed.

Lemma code_block_removes s out rest :
  code_block_at s = Some (out, rest) -> out = [].
Proof.
  unfold code_block_at.
  destruct (strip_prefix (py "{{") s) as [u|]; [|discriminate].
  destruct (after_first (py "}}") u); [|discriminate].
  intros E; injection E as <- _. reflexivity.
Qed.

Lemma image_removes s out rest :
  image_at s = Some (out, rest) -> out = [].
Proof.
  unfold image_at. destruct s as [|a u]; [discriminate|].
  destruct (N.eqb a (ch "!")); [|discriminate].
  destruct (image_end u); [|discriminate].
  intros E; injection E as <- _. reflexivity.
Qed.

Lemma replace_links_shrinking : shrinking replace_links.
Proof.
  apply scan_shrinking. intros u out rest E.
  unfold link_at in E. destruct u as [|a u']; [discriminate|].
  destruct (N.eqb a (ch "[")); [|discriminate].
  destruct (link_split_display _ _ _ E) as [tail Hu].
  exists a, (out ++ tail). split.
  - rewrite Hu, <- app_assoc. reflexivity.
  - rewrite length_app. lia.
Qed.

(** Each markup substitution that finds something makes the text
    shorter. *)
Lemma markup_shrinking : shrinking markup.
Proof.
  unfold markup.
  apply (shrinking_compose
           (fun s => remove_images (remove_code_blocks
                       (remove_color_close (remove_color_open s))))
           replace_links); [|exact replace_links_shrinking].
  apply (shrinking_compose
           (fun s => remove_code_blocks
                       (remove_color_close (remove_color_open s)))
           remove_images);
    [|exact (removal_shrinking _ image_consumes image_removes)].
  apply (shrinking_compose
           (fun s => remove_color_close (remove_color_open s))
           remove_code_blocks);
    [|exact (removal_shrinking _ code_block_consumes code_block_removes)].
  apply (shrinking_compose remove_color_open remove_color_close).
  - exact (removal_shrinking _ color_open_consumes color_open_removes).
  - exact (removal_shrinking _ color_close_consumes color_close_removes).
Qed.

Lemma collapse_length s :
  List.length (collapse_newlines s) <= List.length s.
Proof.
  apply scan_length. intros u out rest E.
  destruct (newline_run_consumes _ _ _ E) as (c & pre & Hu).
  exists c, pre. split; [exact Hu|].
  unfold newline_run_at in E. destruct u as [|a u']; [discriminate|].
  destruct (N.eqb a NL); [|discriminate].
  injection E as <- _. cbn; lia.
Qed.

(** C8, amended: cleaning a cleaned text returns it unchanged exactly when
    the five markup substitutions (colour markers, [{color}], code blocks,
    images, links) find nothing left to replace in it. *)
Theorem clean_text_idempotent_iff (s t : pystr) :
  _clean_text (PStr s) = Ok t ->
  (_clean_text (PStr t) = Ok t <-> markup t = t).
Proof.
  rewrite !clean_text_str. intros E; injection E as E. split.
  - intros H; injection H as H.
    destruct (markup_shrinking t) as [Em|Lm]; [exact Em|]. exfalso.
    change (clean_stages t) with (strip (collapse_newlines (markup t))) in H.
    pose proof (strip_length (collapse_newlines (markup t))) as L1.
    pose proof (collapse_length (markup t)) as L2.
    rewrite H in L1. lia.
  - intros Hm. f_equal.
    change (clean_stages t) with (strip (collapse_newlines (markup t))).
    rewrite Hm. subst t.
    change (clean_stages s) with (strip (collapse_newlines (markup s))).
    apply strip_collapse_fixed.
Qed.

Lemma clean_text_idempotent_iff_witness :
  _clean_text (PStr (py "Hello! a[1] = {x}")) = Ok (py "Hello! a[1] = {x}").
Proof.
  apply (proj2 (clean_text_idempotent_iff
                  (py "{color:red}Hello!{color} a[1] = {x}")
                  (py "Hello! a[1] = {x}")
                  ltac:(vm_compute; reflexivity))).
  vm_compute; reflexivity.
Defined.

(** X3: cleaning never makes a text longer. *)
Theorem clean_text_never_longer (s : pystr) :
  exists t,
    _clean_text (PStr s) = Ok t /\ List.length t <= List.length s.
Proof.
  exists (clean_stages s). split; [apply clean_text_str|].
  apply clean_stages_length.
Qed.

(** X4: on a text without [{], [!] and [[] only newline runs and the
    whitespace at both ends are touched; if it has neither, the text comes
    back as it is. *)
Theorem clean_text_on_plain_text (s : pystr) :
  plain s = true ->
  _clean_text (PStr s) = Ok (strip (collapse_newlines s))
  /\ (adj_free s = true -> strip s = s -> _clean_text (PStr s) = Ok s).
Proof.
  intros Hp. rewrite clean_text_str, (clean_stages_plain s Hp).
  split; [reflexivity|].
  intros Ha Hs. rewrite (collapse_fixed s Ha), Hs. reflexivity.
Qed.

Lemma clean_text_on_plain_text_witness :
  _clean_text (PStr (py "  see notes  "))= Ok (py "see notes")
  /\ _clean_text (PStr (py "see notes")) = Ok (py "see notes").
Proof.
  split.
  - apply (eq_trans (proj1 (clean_text_on_plain_text (py "  see notes  ")
                              eq_refl))). reflexivity.
  - apply (proj2 (clean_text_on_plain_text (py "see notes") eq_refl));
      reflexivity.
Defined.

(** ** More on the operations *)

Section MoreFacts.

Variable client : list call -> call -> result pyval.
Variable strftime_ymd : pystr -> option pystr.
Variable str_exn : exn -> pystr.
Variable str_value : pyval -> pystr.
Variable self : JiraFetcher.

Lemma clean_text_raises v :
  is_text v = false -> _clean_text v = Raise (TypeError v).
Proof.
  unfold is_text, _clean_text. intros H.
  apply orb_false_iff in H as [H1 H2].
  apply negb_false_iff in H1. rewrite H1. cbn [negb].
  destruct v; try reflexivity. discriminate H2.
Qed.

(** X5: a description that is neither falsy nor a string (a document
    tree, say) makes [re.sub] raise, and [get_issue] returns the error
    document of that [TypeError]. *)
Theorem get_issue_rejects_structured_description issue_key expand t d fd :
  client t (Issue issue_key expand) = Ok (PDict d) ->
  d <> [] ->
  field d (py "fields") (PDict []) = PDict fd ->
  is_text (field fd (py "description") (PStr [])) = false ->
  get_issue client strftime_ymd str_exn str_value self issue_key expand t
  = (Ok (error_doc issue_key
           (str_exn (TypeError (field fd (py "description") (PStr []))))),
     t ++ [Issue issue_key expand]).
Proof.
  intros Hc Hd Hf Hn. rewrite get_issue_run, Hc.
  destruct d as [|kv d']; [contradiction|].
  cbn [truthy isinstance_dict negb orb].
  unfold issue_doc. cbn [py_get rbind]. rewrite Hf.
  cbn [isinstance_dict negb py_get rbind].
  rewrite (clean_text_raises _ Hn). reflexivity.
Qed.

Lemma get_issue_shape issue_key expand t :
  exists d,
    get_issue_value client strftime_ymd str_exn str_value self issue_key
      expand t = PDict d
    /\ dict_get d (py "key") = Some issue_key
    /\ (map fst d = [py "key"; py "error"] /\ has_error (PDict d) = true
        \/ map fst d = document_keys /\ has_error (PDict d) = false).
Proof.
  unfold get_issue_value. rewrite get_issue_run. cbn [fst].
  assert (Herr : forall msg,
    exists d, error_doc issue_key msg = PDict d
      /\ dict_get d (py "key") = Some issue_key
      /\ (map fst d = [py "key"; py "error"] /\ has_error (PDict d) = true
          \/ map fst d = document_keys /\ has_error (PDict d) = false)).
  { intros msg. eexists. split; [reflexivity|]. split; [reflexivity|].
    left. split; reflexivity. }
  destruct (client t (Issue issue_key expand)) as [issue|e]; [|apply Herr].
  destruct (negb (truthy issue) || negb (isinstance_dict issue));
    [apply Herr|].
  destruct (issue_doc strftime_ymd str_value self issue_key issue)
    as [doc|e] eqn:E; [|apply Herr].
  apply issue_doc_inv in E
    as [->|(fd & ? & ? & ? & ? & ? & ? & ? & ? & ? & _ & _ & ->)];
    [apply Herr|].
  eexists. split; [reflexivity|]. split; [reflexivity|].
  right. split; reflexivity.
Qed.

(** X6: whatever the client does, [get_issue] returns a dictionary that
    holds the requested key under [key] and has one of two shapes: the two
    keys [key] and [error], or the eleven keys of a document and no
    [error]. *)
Theorem get_issue_result_shape issue_key expand t :
  exists d,
    fst (get_issue client strftime_ymd str_exn str_value self issue_key
           expand t) = Ok (PDict d)
    /\ dict_get d (py "key") = Some issue_key
    /\ (map fst d = [py "key"; py "error"] /\ has_error (PDict d) = true
        \/ map fst d = document_keys /\ has_error (PDict d) = false).
Proof.
  destruct (get_issue_shape issue_key expand t) as (d & E & H).
  exists d. split; [|exact H].
  rewrite get_issue_value_run. cbn [fst]. rewrite E. reflexivity.
Qed.

Lemma collect_documents_full expand issues :
  forall documents t docs t',
  Forall (fun doc => dict_keys doc = document_keys) documents ->
  collect_documents client strftime_ymd str_exn str_value self expand issues
    documents t = (Ok docs, t') ->
  Forall (fun doc => dict_keys doc = document_keys) docs
  /\ List.length docs <= List.length documents + List.length issues.
Proof.
  induction issues as [|issue rest IH]; intros documents t docs t' Hd.
  - cbn. intros E; injection E as <- _. split; [exact Hd|lia].
  - cbn [collect_documents]. unfold mbind at 1, lift at 1.
    destruct (py_get issue (py "key") (PStr (py "UNKNOWN"))) as [key|e];
      [|discriminate].
    unfold mbind at 1. rewrite get_issue_value_run.
    destruct (get_issue_shape key expand t) as (d & Ev & _ & Hs).
    rewrite Ev. unfold mbind at 1, lift at 1.
    rewrite (py_in_error_dict (PDict d) eq_refl).
    destruct Hs as [[_ He]|[Hk He]]; rewrite He; intros E.
    + destruct (IH _ _ _ _ Hd E) as [HF HL]. split; [exact HF|].
      cbn [List.length]. lia.
    + assert (Hd' : Forall (fun doc => dict_keys doc = document_keys)
                      (documents ++ [PDict d])).
      { apply Forall_app; split; [exact Hd|].
        constructor; [exact Hk|constructor]. }
      destruct (IH _ _ _ _ Hd' E) as [HF HL]. split; [exact HF|].
      rewrite length_app in HL. cbn [List.length] in HL |- *. lia.
Qed.

Lemma search_issues_full jql fields start limit expand t :
  exists docs,
    fst (search_issues client strftime_ymd str_exn str_value self jql fields
           start limit expand t) = Ok (PList docs)
    /\ Forall (fun doc => dict_keys doc = document_keys) docs.
Proof.
  unfold search_issues, try_except, search_issues_try.
  unfold mbind at 1, request at 1.
  destruct (client t (Jql jql fields start limit expand)) as [results|e];
    [|exists []; split; [reflexivity|constructor]].
  unfold mbind at 1, lift at 1.
  destruct (if negb (truthy results) then Ok true
            else b <- py_in (py "issues") results;; Ok (negb b))
    as [[|]|e]; try (exists []; split; [reflexivity|constructor]).
  unfold mbind at 1, lift at 1.
  destruct (l <- py_get results (py "issues") (PList []);; py_iter l)
    as [issues|e]; [|exists []; split; [reflexivity|constructor]].
  unfold mbind at 1.
  destruct (collect_documents client strftime_ymd str_exn str_value self
              expand issues [] _) as [[docs|e] t2] eqn:E.
  - exists docs; split; [reflexivity|].
    exact (proj1 (collect_documents_full _ _ _ _ _ _ (Forall_nil _) E)).
  - exists []; split; [reflexivity|constructor].
Qed.

(** X7: every element of the list [search_issues] returns is a full
    document: it has exactly the eleven keys. *)
Theorem search_issues_returns_full_documents jql fields start limit expand t :
  exists docs,
    fst (search_issues client strftime_ymd str_exn str_value self jql fields
           start limit expand t) = Ok (PList docs)
    /\ Forall (fun doc => dict_keys doc = document_keys) docs.
Proof. apply search_issues_full. Qed.

(** X8: [get_project_issues] has no handler of its own and needs none: it
    always returns a list of full documents, and the empty list after one
    request when the client's search raises. *)
Theorem get_project_issues_never_raises project_key start limit t :
  (exists docs,
     fst (get_project_issues client strftime_ymd str_exn str_value self
            project_key start limit t) = Ok (PList docs)
     /\ Forall (fun doc => dict_keys doc = document_keys) docs)
  /\ (forall e,
      client t (Jql (py "project = " ++ format_value str_value project_key
                     ++ py " ORDER BY created DESC")
                  (PStr (py "*all")) start limit PNone) = Raise e ->
      get_project_issues client strftime_ymd str_exn str_value self
        project_key start limit t
      = (Ok (PList []),
         t ++ [Jql (py "project = " ++ format_value str_value project_key
                    ++ py " ORDER BY created DESC")
                 (PStr (py "*all")) start limit PNone])).
Proof.
  unfold get_project_issues. split.
  - apply search_issues_full.
  - intros e. apply search_issues_client_raises.
Qed.

Lemma collect_documents_stops expand good bad rest :
  Forall (fun issue => isinstance_dict issue = true) good ->
  isinstance_dict bad = false ->
  forall documents t,
  collect_documents client strftime_ymd str_exn str_value self expand
    (good ++ bad :: rest) documents t
  = (Raise (AttributeError bad (py "get")),
     t ++ map (fun k => Issue k expand) (map key_of good)).
Proof.
  intros Hg Hb. induction Hg as [|issue good Hi _ IH]; intros documents t.
  - cbn [app map collect_documents]. unfold mbind at 1, lift at 1.
    destruct bad; try discriminate Hb; cbn [py_get]; rewrite app_nil_r;
      reflexivity.
  - destruct issue as [| | | | |d]; try discriminate Hi.
    cbn [app collect_documents map key_of py_get].
    unfold mbind at 1, lift at 1. unfold mbind at 1.
    rewrite get_issue_value_run.
    unfold mbind at 1, lift at 1.
    rewrite (py_in_error_dict _ (get_issue_returns_dict client strftime_ymd
                                   str_exn str_value self _ expand t)).
    rewrite IH, <- app_assoc. reflexivity.
Qed.

Lemma search_issues_stops jql fields start limit expand t r good bad rest :
  client t (Jql jql fields start limit expand) = Ok (PDict r) ->
  dict_get r (py "issues") = Some (PList (good ++ bad :: rest)) ->
  Forall (fun issue => isinstance_dict issue = true) good ->
  isinstance_dict bad = false ->
  search_issues client strftime_ymd str_exn str_value self jql fields start
    limit expand t
  = (Ok (PList []),
     (t ++ [Jql jql fields start limit expand])
     ++ map (fun k => Issue k expand) (map key_of good)).
Proof.
  intros Hc Hi Hg Hb.
  unfold search_issues, try_except, search_issues_try.
  unfold mbind at 1, request at 1. rewrite Hc.
  destruct r as [|kv r']; [discriminate Hi|].
  unfold mbind at 1, lift at 1. cbn [truthy negb py_in rbind].
  rewrite Hi. cbn [is_some negb].
  unfold mbind at 1, lift at 1. cbn [py_get rbind]. unfold field. rewrite Hi.
  cbn [py_iter]. unfold mbind at 1.
  rewrite (collect_documents_stops expand good bad rest Hg Hb). reflexivity.
Qed.

(** X9: a search is all or nothing.  When an element of the answer's
    [issues] is not a dictionary, [search_issues] returns the empty list,
    although it has already requested every issue that stands before that
    element. *)
Theorem search_issues_all_or_nothing jql fields start limit expand t r
  good bad rest :
  client t (Jql jql fields start limit expand) = Ok (PDict r) ->
  dict_get r (py "issues") = Some (PList (good ++ bad :: rest)) ->
  Forall (fun issue => isinstance_dict issue = true) good ->
  isinstance_dict bad = false ->
  search_issues client strftime_ymd str_exn str_value self jql fields start
    limit expand t
  = (Ok (PList []),
     (t ++ [Jql jql fields start limit expand])
     ++ map (fun k => Issue k expand) (map key_of good)).
Proof. apply search_issues_stops. Qed.

Lemma map_result_stops {A B} (f : A -> result B) good bad rest e :
  (forall x, In x good -> exists y, f x = Ok y) ->
  f bad = Raise e ->
  map_result f (good ++ bad :: rest) = Raise e.
Proof.
  intros Hg Hb. induction good as [|x good IH]; cbn [app map_result].
  - rewrite Hb. reflexivity.
  - destruct (Hg x (or_introl eq_refl)) as [y Ey]. rewrite Ey. cbn [rbind].
    rewrite IH; [reflexivity|]. intros z Hz. apply Hg. right. exact Hz.
Qed.

Lemma project_entry_row p :
  isinstance_dict p = true -> project_entry p = Ok (project_row p).
Proof. destruct p; try discriminate; reflexivity. Qed.

Lemma map_project_entry_rows ps l :
  map_result project_entry ps = Ok l ->
  Forall (fun row => exists k n, row = PDict [(py "key", k); (py "name", n)])
    l.
Proof.
  revert l; induction ps as [|p ps IH]; intros l; cbn [map_result].
  - intros E; injection E as <-. constructor.
  - destruct p as [| | | | |d]; try discriminate. cbn [project_entry py_get rbind].
    destruct (map_result project_entry ps) as [bs|e]; [|discriminate].
    cbn [rbind]. intros E; injection E as <-.
    constructor; [eauto|exact (IH bs eq_refl)].
Qed.

Lemma get_all_projects_rows_only t :
  exists rows,
    get_all_projects client self t = (Ok (PList rows), t ++ [Projects])
    /\ Forall (fun row =>
                 exists k n, row = PDict [(py "key", k); (py "name", n)])
         rows.
Proof.
  unfold get_all_projects, try_except, get_all_projects_try, mbind, request,
    lift, mret.
  destruct (client t Projects) as [projects|e];
    [|exists []; split; [reflexivity|constructor]].
  destruct (negb (truthy projects));
    [exists []; split; [reflexivity|constructor]|].
  destruct (py_iter projects) as [ps|e];
    [|exists []; split; [reflexivity|constructor]].
  cbn [rbind]. destruct (map_result project_entry ps) as [l|e] eqn:E.
  - exists l; split; [reflexivity|]. exact (map_project_entry_rows _ _ E).
  - exists []; split; [reflexivity|constructor].
Qed.

Lemma get_all_projects_stops t good bad rest :
  client t Projects = Ok (PList (good ++ bad :: rest)) ->
  Forall (fun p => isinstance_dict p = true) good ->
  isinstance_dict bad = false ->
  get_all_projects client self t = (Ok (PList []), t ++ [Projects]).
Proof.
  intros Hc Hg Hb.
  unfold get_all_projects, try_except, get_all_projects_try, mbind, request,
    lift, mret. rewrite Hc.
  assert (Ht : truthy (PList (good ++ bad :: rest)) = true)
    by (destruct good; reflexivity).
  rewrite Ht. cbn [negb py_iter rbind].
  rewrite (map_result_stops project_entry good bad rest
             (AttributeError bad (py "get"))).
  - reflexivity.
  - intros x Hx. rewrite Forall_forall in Hg.
    exists (project_row x). exact (project_entry_row x (Hg x Hx)).
  - destruct bad; try discriminate Hb; reflexivity.
Qed.

(** X10: the project list is all or nothing too.  Every element
    [get_all_projects] returns is a dictionary with exactly the keys [key]
    and [name]; and when an element of the client's list is not a
    dictionary the result is the empty list, whatever the other elements
    are. *)
Theorem get_all_projects_all_or_nothing t :
  (exists rows,
     get_all_projects client self t = (Ok (PList rows), t ++ [Projects])
     /\ Forall (fun row =>
                  exists k n, row = PDict [(py "key", k); (py "name", n)])
          rows)
  /\ (forall good bad rest,
      client t Projects = Ok (PList (good ++ bad :: rest)) ->
      Forall (fun p => isinstance_dict p = true) good ->
      isinstance_dict bad = false ->
      get_all_projects client self t = (Ok (PList []), t ++ [Projects])).
Proof.
  split; [apply get_all_projects_rows_only|].
  intros good bad rest. apply get_all_projects_stops.
Qed.

Lemma get_comment_ok_in good :
  forallb (comment_ok strftime_ymd) good = true ->
  forall x, In x good -> exists y, get_comment strftime_ymd x = Ok y.
Proof.
  intros H x Hx. rewrite forallb_forall in H.
  exists (comment_shape strftime_ymd x). exact (get_comment_ok _ _ (H x Hx)).
Qed.

(** X11: one malformed comment spoils the issue.  When the description
    is fine and the comments are a list in which an element is not a
    dictionary, after comments that are fine, [get_issue] returns the error
    document of the [AttributeError] on that element, and none of the
    issue's own fields. *)
Theorem get_issue_malformed_comment issue_key expand t d fd cm good bad rest :
  client t (Issue issue_key expand) = Ok (PDict d) ->
  d <> [] ->
  field d (py "fields") (PDict []) = PDict fd ->
  is_text (field fd (py "description") (PStr [])) = true ->
  dict_get fd (py "comment") = Some (PDict cm) ->
  field cm (py "comments") (PList []) = PList (good ++ bad :: rest) ->
  forallb (comment_ok strftime_ymd) good = true ->
  isinstance_dict bad = false ->
  get_issue client strftime_ymd str_exn str_value self issue_key expand t
  = (Ok (error_doc issue_key (str_exn (AttributeError bad (py "get")))),
     t ++ [Issue issue_key expand]).
Proof.
  intros Hc Hd Hf Hdes Hcm Hl Hg Hb. rewrite get_issue_run, Hc.
  destruct d as [|kv d']; [contradiction|].
  cbn [truthy isinstance_dict negb orb].
  unfold issue_doc. cbn [py_get rbind]. rewrite Hf.
  cbn [isinstance_dict negb py_get rbind].
  rewrite (clean_text_ok _ Hdes). cbn [rbind].
  unfold field at 1. rewrite Hcm. cbn [isinstance_dict py_getitem].
  rewrite Hcm. cbn [rbind py_get]. rewrite Hl. cbn [py_iter rbind].
  rewrite (map_result_stops (get_comment strftime_ymd) good bad rest
             (AttributeError bad (py "get")) (get_comment_ok_in good Hg)).
  - reflexivity.
  - destruct bad; try discriminate Hb; reflexivity.
Qed.

Lemma drop_while_repeat f (c : N) n (s : pystr) :
  f c = true -> drop_while f (repeat c n ++ s) = drop_while f s.
Proof.
  intros H; induction n as [|n IH]; [reflexivity|].
  cbn [repeat app drop_while]. rewrite H. exact IH.
Qed.

Lemma rstrip_repeat f (s : pystr) c n :
  f c = true -> rstrip f (s ++ repeat c n) = rstrip f s.
Proof.
  intros H. unfold rstrip.
  rewrite rev_app_distr, rev_repeat, (drop_while_repeat f c n _ H).
  reflexivity.
Qed.

(** X12: slashes at the end of the server URL change nothing: a fetcher
    whose server is another's followed by any number of [/] returns the
    same from [get_issue], link included, and the server part of a link
    never ends in [/]. *)
Theorem get_issue_ignores_trailing_slashes (other : JiraFetcher) n
  issue_key expand t :
  server other = server self ++ repeat (ch "/") n ->
  get_issue client strftime_ymd str_exn str_value other issue_key expand t
  = get_issue client strftime_ymd str_exn str_value self issue_key expand t
  /\ (forall r c,
      rstrip (N.eqb (ch "/")) (server other) = r ++ [c] -> c <> ch "/").
Proof.
  intros Hs. split.
  - rewrite !get_issue_run.
    destruct (client t (Issue issue_key expand)) as [issue|e]; [|reflexivity].
    destruct (negb (truthy issue) || negb (isinstance_dict issue));
      [reflexivity|].
    unfold issue_doc. rewrite Hs, rstrip_repeat by reflexivity. reflexivity.
  - intros r c H Hc. apply rstrip_last in H. subst c. discriminate H.
Qed.





End MoreFacts.

(** ** The script and the timestamps *)

Lemma init_missing environ :
  missing environ (py "JIRA_SITE")
  \/ missing environ (py "JIRA_EMAIL")
  \/ missing environ (py "JIRA_API_TOKEN") ->
  __init__ environ
  = Raise (ValueError (py "Missing required Jira environment variables")).
Proof.
  unfold __init__, getenv, missing.
  destruct (environ (py "JIRA_SITE")) as [[|a s]|];
    destruct (environ (py "JIRA_EMAIL")) as [[|b m]|];
    destruct (environ (py "JIRA_API_TOKEN")) as [[|c k]|];
    cbn [forallb nonempty andb negb]; try reflexivity.
  intros [[H|H]|[[H|H]|[H|H]]]; discriminate H.
Qed.

Lemma init_complete environ s m k :
  environ (py "JIRA_SITE") = Some s ->
  environ (py "JIRA_EMAIL") = Some m ->
  environ (py "JIRA_API_TOKEN") = Some k ->
  s <> [] -> m <> [] -> k <> [] ->
  __init__ environ =
  Ok {| server := s; email := m; api_token := k;
        jira := {| url := s; username := m; password := k;
                   cloud := true |} |}.
Proof.
  unfold __init__, getenv. intros -> -> -> Hs Hm Hk.
  destruct s; [contradiction|]. destruct m; [contradiction|].
  destruct k; [contradiction|]. reflexivity.
Qed.

Lemma print_projects_rows str_value rows :
  Forall (fun row => exists k n, row = PDict [(py "key", k); (py "name", n)])
    rows ->
  forall stdout,
  print_projects str_value rows stdout
  = (Ok tt, stdout ++ map (row_text str_value) rows).
Proof.
  induction 1 as [|row rows (k & n & ->) _ IH]; intros stdout.
  - cbn. rewrite app_nil_r. reflexivity.
  - cbn [print_projects map].
    change (project_line str_value (PDict [(py "key", k); (py "name", n)]))
      with (Ok (row_text str_value (PDict [(py "key", k); (py "name", n)]))).
    cbv beta iota. rewrite IH, <- app_assoc. reflexivity.
Qed.

Lemma row_text_project_row str_value ps :
  Forall (fun p => isinstance_dict p = true) ps ->
  map (row_text str_value) (map project_row ps) = map (row_text str_value) ps.
Proof.
  induction 1 as [|p ps Hp _ IH]; [reflexivity|].
  destruct p; try discriminate Hp. cbn [map]. rewrite IH. reflexivity.
Qed.

(** X13: the script run when the module is loaded.  With one of the three
    variables unset or empty it stops with the [ValueError] before any
    request and prints nothing.  With the three set it never raises, sends
    the one request for the projects and prints one line [key: name] per
    project of the client's list, in order; it prints nothing when that
    request fails. *)
Theorem script_behaviour (client : list call -> call -> result pyval)
  (str_value : pyval -> pystr) (environ : pystr -> option pystr)
  (t : list call) :
  (missing environ (py "JIRA_SITE")
   \/ missing environ (py "JIRA_EMAIL")
   \/ missing environ (py "JIRA_API_TOKEN") ->
   script client str_value environ t
   = (Raise (ValueError (py "Missing required Jira environment variables")),
      [], t))
  /\ (forall s m k,
      environ (py "JIRA_SITE") = Some s ->
      environ (py "JIRA_EMAIL") = Some m ->
      environ (py "JIRA_API_TOKEN") = Some k ->
      s <> [] -> m <> [] -> k <> [] ->
      exists lines,
        script client str_value environ t = (Ok tt, lines, t ++ [Projects])
        /\ (forall ps,
            client t Projects = Ok (PList ps) ->
            Forall (fun p => isinstance_dict p = true) ps ->
            lines = map (row_text str_value) ps)
        /\ (forall e, client t Projects = Raise e -> lines = [])).
Proof.
  split.
  - intros H. unfold script. rewrite (init_missing _ H). reflexivity.
  - intros s m k Hs Hm Hk Ns Nm Nk. unfold script.
    rewrite (init_complete _ _ _ _ Hs Hm Hk Ns Nm Nk).
    set (fetcher := {| server := s; email := m; api_token := k;
                       jira := _ |}).
    destruct (get_all_projects_rows_only client fetcher t)
      as (rows & E & Hrows).
    rewrite E. cbn [py_iter].
    rewrite (print_projects_rows str_value rows Hrows []). cbn [app].
    exists (map (row_text str_value) rows). split; [reflexivity|]. split.
    + intros ps Hc Hp.
      rewrite (get_all_projects_dicts client fetcher t ps Hc Hp) in E.
      injection E as <-. apply row_text_project_row. exact Hp.
    + intros e He.
      rewrite (get_all_projects_client_raises client fetcher t e He) in E.
      injection E as <-. reflexivity.
Qed.

Lemma script_behaviour_witness :
  script demo_client demo_str_value demo_environ_no_token []
  = (Raise (ValueError (py "Missing required Jira environment variables")),
     [], [])
  /\ exists lines,
       script demo_client demo_str_value demo_environ []
       = (Ok tt, lines, [Projects])
       /\ lines = [py "PRJ: Project"; py "OPS: NoneType"].
Proof.
  split.
  - apply (proj1 (script_behaviour demo_client demo_str_value
                    demo_environ_no_token [])).
    right; right; right; reflexivity.
  - destruct (proj2 (script_behaviour demo_client demo_str_value demo_environ
                       [])
                (py "https://jira.example.com/") (py "dev@example.com")
                (py "secret") eq_refl eq_refl eq_refl
                ltac:(discriminate) ltac:(discriminate) ltac:(discriminate))
      as (lines & E & Hl & _).
    exists lines. split; [exact E|].
    apply (Hl demo_projects eq_refl). repeat constructor.
Defined.

Lemma replace_char_suffix (z : N) (new s : pystr) :
  ~ In z s -> str_replace [z] new (s ++ [z]) = s ++ new.
Proof.
  unfold str_replace.
  set (m := fun t => match strip_prefix [z] t with
                     | Some rest => Some (new, rest)
                     | None => None
                     end).
  induction s as [|c s IH]; intros H.
  - cbn [app scan]. unfold m at 1. cbn [strip_prefix].
    rewrite N.eqb_refl. cbn. apply app_nil_r.
  - cbn [app scan]. unfold m at 1. cbn [strip_prefix].
    destruct (N.eqb c z) eqn:E.
    + apply N.eqb_eq in E. exfalso. apply H. left. exact E.
    + rewrite IH; [reflexivity|]. intros Hz. apply H. right. exact Hz.
Qed.

Lemma replace_char_absent (z : N) (new s : pystr) :
  ~ In z s -> str_replace [z] new s = s.
Proof.
  intros H. unfold str_replace. apply (scan_no_trigger _ z); [|exact H].
  intros c t Hc. apply N.eqb_neq in Hc. cbn [strip_prefix]. rewrite Hc.
  reflexivity.
Qed.

(** X14: what reaches [datetime.fromisoformat].  A timestamp without [Z]
    is handed over as it is, and one that ends in [Z] (and has no other)
    with the [Z] turned into [+00:00]. *)
Theorem utc_suffix_is_rewritten (s : pystr) :
  ~ In (ch "Z") s ->
  py_replace (PStr s) (py "Z") (py "+00:00") = Ok s
  /\ py_replace (PStr (s ++ py "Z")) (py "Z") (py "+00:00")
     = Ok (s ++ py "+00:00").
Proof.
  intros H. cbn [py_replace]. split; f_equal.
  - exact (replace_char_absent (ch "Z") _ s H).
  - exact (replace_char_suffix (ch "Z") _ s H).
Qed.

Lemma utc_suffix_is_rewritten_witness :
  py_replace (PStr (py "2024-03-06T08:00:00.000+0000")) (py "Z") (py "+00:00")
  = Ok (py "2024-03-06T08:00:00.000+0000")
  /\ py_replace (PStr (py "2024-03-06T08:00:00.000" ++ py "Z")) (py "Z")
       (py "+00:00")
     = Ok (py "2024-03-06T08:00:00.000" ++ py "+00:00").
Proof.
  split.
  - apply (proj1 (utc_suffix_is_rewritten (py "2024-03-06T08:00:00.000+0000")
                    ltac:(cbn; intuition discriminate))).
  - apply (proj2 (utc_suffix_is_rewritten (py "2024-03-06T08:00:00.000")
                    ltac:(cbn; intuition discriminate))).
Defined.

(** ** More examples *)



Lemma get_issue_rejects_structured_description_witness :
  is_text (field tree_fields (py "description") (PStr [])) = false
  /\ get_issue (client_returning tree_issue) demo_strftime_ymd demo_str_exn
       demo_str_value demo_self (PStr (py "PRJ-1")) PNone []
     = (Ok (error_doc (PStr (py "PRJ-1")) (py "unexpected 'dict'")),
        [Issue (PStr (py "PRJ-1")) PNone]).
Proof.
  split; [reflexivity|].
  exact (get_issue_rejects_structured_description
           (client_returning tree_issue) demo_strftime_ymd demo_str_exn
           demo_str_value demo_self (PStr (py "PRJ-1")) PNone []
           [(py "fields", PDict tree_fields)] tree_fields
           eq_refl ltac:(discriminate) eq_refl eq_refl).
Defined.

Lemma search_issues_all_or_nothing_witness :
  search_issues torn_client demo_strftime_ymd demo_str_exn demo_str_value
    demo_self (py "project = PRJ") (PStr (py "*all")) (PInt 0) (PInt 50)
    PNone []
  = (Ok (PList []),
     [Jql (py "project = PRJ") (PStr (py "*all")) (PInt 0) (PInt 50) PNone;
      Issue (PStr (py "PRJ-1")) PNone]).
Proof.
  exact (search_issues_all_or_nothing torn_client demo_strftime_ymd
           demo_str_exn demo_str_value demo_self (py "project = PRJ")
           (PStr (py "*all")) (PInt 0) (PInt 50) PNone [] torn_search
           [PDict [(py "key", PStr (py "PRJ-1"))]] (PStr (py "PRJ-2"))
           [PDict [(py "key", PStr (py "PRJ-3"))]]
           eq_refl eq_refl ltac:(repeat constructor) eq_refl).
Defined.

Lemma get_all_projects_all_or_nothing_witness :
  get_all_projects torn_client demo_self [] = (Ok (PList []), [Projects]).
Proof.
  exact (proj2 (get_all_projects_all_or_nothing torn_client demo_self [])
           [PDict [(py "key", PStr (py "PRJ"))]] PNone
           [PDict [(py "key", PStr (py "OPS"))]]
           eq_refl ltac:(repeat constructor) eq_refl).
Defined.

Lemma get_issue_malformed_comment_witness :
  get_issue (client_returning torn_issue) demo_strftime_ymd demo_str_exn
    demo_str_value demo_self (PStr (py "PRJ-1")) PNone []
  = (Ok (error_doc (PStr (py "PRJ-1"))
           (py "'str' object has no attribute 'get'")),
     [Issue (PStr (py "PRJ-1")) PNone]).
Proof.
  exact (get_issue_malformed_comment (client_returning torn_issue)
           demo_strftime_ymd demo_str_exn demo_str_value demo_self
           (PStr (py "PRJ-1")) PNone [] [(py "fields", PDict torn_fields)]
           torn_fields torn_comments [PDict []] (PStr (py "oops")) []
           eq_refl ltac:(discriminate) eq_refl eq_refl eq_refl eq_refl
           eq_refl eq_refl).
Defined.

Lemma get_issue_ignores_trailing_slashes_witness :
  get_issue demo_client demo_strftime_ymd demo_str_exn demo_str_value
    slashed_self (PStr (py "PRJ-1")) PNone []
  = (Ok demo_document, [Issue (PStr (py "PRJ-1")) PNone]).
Proof.
  apply (eq_trans
           (proj1 (get_issue_ignores_trailing_slashes demo_client
                     demo_strftime_ymd demo_str_exn demo_str_value demo_self
                     slashed_self 2 (PStr (py "PRJ-1")) PNone [] eq_refl))).
  vm_compute; reflexivity.
Defined.
